(** * Shallow embedding of the RKF45 integrator [rk45], the catalysis
    right-hand side [f_catalysis] and the Monte Carlo driver [plot_samples]
    of handouts/handout_01.ipynb.

    Numbers are modelled as numpy scalars: a 64-bit integer ([I], with its
    wrap-around) or an IEEE binary64 float ([F], Rocq's primitive floats,
    whose operations round exactly as numpy's float64 ones do).  A numpy
    1-d array is a list of such scalars; a 2-d array is a list of rows.
    Raised exceptions (IndexError, ValueError, errors of [f]) are [None]. *)

From Stdlib Require Import ZArith Floats.
From stdpp Require Import base list.

Set Warnings "-inexact-float".

(** ** numpy scalars *)

Definition int64_min : Z := (- 2 ^ 63)%Z.
Definition int64_max : Z := (2 ^ 63 - 1)%Z.

(** Two's-complement wrap-around of numpy's int64 arithmetic. *)
Definition wrap64 (z : Z) : Z := ((z + 2 ^ 63) mod 2 ^ 64 - 2 ^ 63)%Z.

(** int64 -> float64 conversion, rounding to nearest even. *)
Definition Z_to_float (z : Z) : float :=
  SF2Prim (binary_normalize FloatOps.prec FloatOps.emax z 0 false).

(** float64 -> int64 conversion as numpy performs it when a float is stored
    into an integer array: truncation toward zero; NaN, infinities and
    out-of-range values give the x86 "integer indefinite" value. *)
Definition float_to_int64 (x : float) : Z :=
  match Prim2SF x with
  | S754_zero _ => 0%Z
  | S754_finite s m e =>
      let mag := if (0 <=? e)%Z then Z.shiftl (Zpos m) e
                 else Z.shiftr (Zpos m) (- e) in
      let v := if s then (- mag)%Z else mag in
      if ((int64_min <=? v) && (v <=? int64_max))%Z then v else int64_min
  | _ => int64_min
  end.

Inductive num : Type :=
| I (z : Z)
| F (x : float).

Definition is_F (x : num) : bool :=
  match x with F _ => true | I _ => false end.

Definition tof (x : num) : float :=
  match x with I z => Z_to_float z | F r => r end.

(** Binary arithmetic with numpy's type promotion: int op int stays int64,
    anything involving a float is computed in float64. *)
Definition nbin (zop : Z -> Z -> Z) (fop : float -> float -> float)
    (x y : num) : num :=
  match x, y with
  | I a, I b => I (wrap64 (zop a b))
  | _, _ => F (fop (tof x) (tof y))
  end.

Definition nadd : num -> num -> num := nbin Z.add PrimFloat.add.
Definition nsub : num -> num -> num := nbin Z.sub PrimFloat.sub.
Definition nmul : num -> num -> num := nbin Z.mul PrimFloat.mul.

Definition nneg (x : num) : num :=
  match x with I a => I (wrap64 (- a)) | F r => F (- r)%float end.

(** ** numpy arrays *)

Abbreviation vec := (list num).

Inductive dtype : Type := Int64 | Float64.

(** [np.array] of a tuple: float64 as soon as one component is a float
    (and for the empty tuple), int64 when every component is an int. *)
Definition dtype_of (y0 : vec) : dtype :=
  match y0 with
  | [] => Float64
  | _ => if existsb is_F y0 then Float64 else Int64
  end.

(** Storing a scalar into an array of the given dtype. *)
Definition cast (dt : dtype) (x : num) : num :=
  match dt, x with
  | Int64, F r => I (float_to_int64 r)
  | Int64, I z => I z
  | Float64, _ => F (tof x)
  end.

(** Element-wise binary operation on 1-d arrays with numpy broadcasting:
    equal lengths, or one operand of length 1; anything else is a
    ValueError. *)
Definition bcast (op : num -> num -> num) (u v : vec) : option vec :=
  if decide (length u = length v) then Some (zip_with op u v)
  else match u, v with
       | [a], _ => Some (map (op a) v)
       | _, [b] => Some (map (fun a => op a b) u)
       | _, _ => None
       end.

Definition vadd (u v : vec) : option vec := bcast nadd u v.

(** [s * v] for a scalar [s] and an array [v]. *)
Definition vscale (s : num) (v : vec) : vec := map (nmul s) v.

(** [base + c1 * k1 + c2 * k2 + ...], evaluated left to right as Python
    does, with Python float coefficients. *)
Definition lincomb (base : vec) (terms : list (float * vec)) : option vec :=
  fold_left (fun acc ck => a ← acc; vadd a (vscale (F ck.1) ck.2))
    terms (Some base).

(** Row assignment [y[j] = v] into a row [old] of a 2-d array of dtype
    [dt]: [v] is broadcast to the row's shape and cast to [dt]. *)
Definition assign_row (dt : dtype) (old v : vec) : option vec :=
  if decide (length v = length old) then Some (map (cast dt) v)
  else match v with
       | [x] => Some (replicate (length old) (cast dt x))
       | _ => None
       end.

(** ** [rk45] *)

Module Coef.
Local Open Scope float_scope.
(** Coefficients used to compute the independent variable argument of f *)
Definition c20 : float := 2.500000000000000e-01.
Definition c30 : float := 3.750000000000000e-01.
Definition c40 : float := 9.230769230769231e-01.
Definition c50 : float := 1.000000000000000e+00.
Definition c60 : float := 5.000000000000000e-01.
(** Coefficients used to compute the dependent variable argument of f *)
Definition c21 : float := 2.500000000000000e-01.
Definition c31 : float := 9.375000000000000e-02.
Definition c32 : float := 2.812500000000000e-01.
Definition c41 : float := 8.793809740555303e-01.
Definition c42 : float := -3.277196176604461e+00.
Definition c43 : float := 3.320892125625853e+00.
Definition c51 : float := 2.032407407407407e+00.
Definition c52 : float := -8.000000000000000e+00.
Definition c53 : float := 7.173489278752436e+00.
Definition c54 : float := -2.058966861598441e-01.
Definition c61 : float := -2.962962962962963e-01.
Definition c62 : float := 2.000000000000000e+00.
Definition c63 : float := -1.381676413255361e+00.
Definition c64 : float := 4.529727095516569e-01.
Definition c65 : float := -2.750000000000000e-01.
(** Coefficients used to compute 4th order RK estimate *)
Definition a1 : float := 1.157407407407407e-01.
Definition a2 : float := 0.000000000000000e-00.
Definition a3 : float := 5.489278752436647e-01.
Definition a4 : float := 5.353313840155945e-01.
Definition a5 : float := -2.000000000000000e-01.
Definition b1 : float := 1.185185185185185e-01.
Definition b2 : float := 0.000000000000000e-00.
Definition b3 : float := 5.189863547758284e-01.
Definition b4 : float := 5.061314903420167e-01.
Definition b5 : float := -1.800000000000000e-01.
Definition b6 : float := 3.636363636363636e-02.
End Coef.
Import Coef.

Record stages : Type := Stages {
  sk1 : vec; sk2 : vec; sk3 : vec; sk4 : vec; sk5 : vec; sk6 : vec }.

Section RK45.
(** [f(y, t, *args)]; an exception raised by [f] is [None]. *)
Context {A : Type} (f : vec -> num -> A -> option vec) (args : A).

(** [k = h * f(yarg, targ, *args)] *)
Definition stage (h : num) (yarg : vec) (targ : num) : option vec :=
  out ← f yarg targ args; Some (vscale h out).

(** The six stage evaluations [k1 .. k6] of one step from [yi] at [ti]. *)
Definition rkf45_ks (h : num) (yi : vec) (ti : num) : option stages :=
  k1 ← stage h yi ti;
  x2 ← lincomb yi [(c21, k1)];
  k2 ← stage h x2 (nadd ti (nmul (F c20) h));
  x3 ← lincomb yi [(c31, k1); (c32, k2)];
  k3 ← stage h x3 (nadd ti (nmul (F c30) h));
  x4 ← lincomb yi [(c41, k1); (c42, k2); (c43, k3)];
  k4 ← stage h x4 (nadd ti (nmul (F c40) h));
  x5 ← lincomb yi [(c51, k1); (c52, k2); (c53, k3); (c54, k4)];
  k5 ← stage h x5 (nadd ti h);
  x6 ← lincomb yi [(c61, k1); (c62, k2); (c63, k3); (c64, k4); (c65, k5)];
  k6 ← stage h x6 (nadd ti (nmul (F c60) h));
  Some (Stages k1 k2 k3 k4 k5 k6).

(** [y[i] + a1 * k1 + a3 * k3 + a4 * k4 + a5 * k5] *)
Definition est4 (ks : stages) (yi : vec) : option vec :=
  lincomb yi [(a1, sk1 ks); (a3, sk3 ks); (a4, sk4 ks); (a5, sk5 ks)].

(** [y5 = y[i] + b1 * k1 + b3 * k3 + b4 * k4 + b5 * k5 + b6 * k6] *)
Definition est5 (ks : stages) (yi : vec) : option vec :=
  lincomb yi [(b1, sk1 ks); (b3, sk3 ks); (b4, sk4 ks); (b5, sk5 ks);
              (b6, sk6 ks)].

Context (t : list num) (dt : dtype).

(** The body of [for i in xrange(n - 1)], acting on the array [y]:
    [y[i+1] = ...] is stored, then [y5] is computed and dropped. *)
Definition rk45_body (i : nat) (y : list vec) : option (list vec) :=
  yi ← y !! i; ti ← t !! i; ti1 ← t !! S i;
  let h := nsub ti1 ti in
  ks ← rkf45_ks h yi ti;
  y4 ← est4 ks yi;
  old ← y !! S i;
  row ← assign_row dt old y4;
  _ ← est5 ks yi;
  Some (<[S i := row]> y).

Fixpoint rk45_loop (k i : nat) (y : list vec) : option (list vec) :=
  match k with
  | O => Some y
  | S k' => y' ← rk45_body i y; rk45_loop k' (S i) y'
  end.

(** The same loop with the line computing [y5] deleted: the comparison
    point for the claim that the 5th-order estimate is unused. *)
Definition rk45_body_no_y5 (i : nat) (y : list vec) : option (list vec) :=
  yi ← y !! i; ti ← t !! i; ti1 ← t !! S i;
  let h := nsub ti1 ti in
  ks ← rkf45_ks h yi ti;
  y4 ← est4 ks yi;
  old ← y !! S i;
  row ← assign_row dt old y4;
  Some (<[S i := row]> y).

Fixpoint rk45_loop_no_y5 (k i : nat) (y : list vec) : option (list vec) :=
  match k with
  | O => Some y
  | S k' => y' ← rk45_body_no_y5 i y; rk45_loop_no_y5 k' (S i) y'
  end.
End RK45.

(** [rk45(f, y0, t, args)]: [y = np.array([y0] * n)], then the loop. *)
Definition rk45 {A} (f : vec -> num -> A -> option vec) (y0 : vec)
    (t : list num) (args : A) : option (list vec) :=
  let n := length t in
  let dt := dtype_of y0 in
  let y := replicate n (map (cast dt) y0) in
  rk45_loop f args t dt (n - 1) 0 y.

Definition rk45_no_y5 {A} (f : vec -> num -> A -> option vec) (y0 : vec)
    (t : list num) (args : A) : option (list vec) :=
  let n := length t in
  let dt := dtype_of y0 in
  rk45_loop_no_y5 f args t dt (n - 1) 0 (replicate n (map (cast dt) y0)).

(** The spec's recurrence, written from its words: entry 0 is [y0], entry
    [i] is the fourth-order RKF estimate advanced from entry [i-1] with the
    classical RKF45 tableau as exact fractions (each rounded once to
    float64), [h = t[i] - t[i-1]], [params] passed to every call of [f]. *)
Section RKF4_spec.
Context {A : Type} (f : vec -> num -> A -> option vec) (params : A).
Local Open Scope float_scope.

Definition rkf4_step_spec (h : num) (yp : vec) (tp : num) : option vec :=
  let k x tt := out ← f x tt params; Some (vscale h out) in
  k1 ← k yp tp;
  k2 ← (x ← lincomb yp [(1/4, k1)]; k x (nadd tp (nmul (F (1/4)) h)));
  k3 ← (x ← lincomb yp [(3/32, k1); (9/32, k2)];
        k x (nadd tp (nmul (F (3/8)) h)));
  k4 ← (x ← lincomb yp [(1932/2197, k1); (-7200/2197, k2); (7296/2197, k3)];
        k x (nadd tp (nmul (F (12/13)) h)));
  k5 ← (x ← lincomb yp [(439/216, k1); (-8, k2); (3680/513, k3);
                         (-845/4104, k4)];
        k x (nadd tp h));
  _ ← (x ← lincomb yp [(-8/27, k1); (2, k2); (-3544/2565, k3);
                        (1859/4104, k4); (-11/40, k5)];
       k x (nadd tp (nmul (F (1/2)) h)));
  lincomb yp [(25/216, k1); (1408/2565, k3); (2197/4104, k4); (-1/5, k5)].

Fixpoint rkf4_traj_spec (yp : vec) (tp : num) (ts : list num)
    : option (list vec) :=
  match ts with
  | [] => Some []
  | tn :: ts' =>
      yn ← rkf4_step_spec (nsub tn tp) yp tp;
      rest ← rkf4_traj_spec yn tn ts';
      Some (yn :: rest)
  end.

Definition integrate_spec (y0 : vec) (t : list num) : option (list vec) :=
  match t with
  | [] => None
  | t0 :: ts => rest ← rkf4_traj_spec y0 t0 ts; Some (y0 :: rest)
  end.
End RKF4_spec.

(** ** The catalysis model [f_catalysis] *)

(** [rhs[i] = x] on a float64 array: IndexError out of range. *)
Definition setitem (v : vec) (i : nat) (x : num) : option vec :=
  if decide (i < length v) then Some (<[i := cast Float64 x]> v) else None.

Definition f_catalysis (y : vec) (t : num) (kappa : vec) : option vec :=
  let rhs := replicate 6 (F 0%float) in
  k0 ← kappa !! 0; k1 ← kappa !! 1; k2 ← kappa !! 2;
  k3 ← kappa !! 3; k4 ← kappa !! 4;
  y0 ← y !! 0; y1 ← y !! 1; y2 ← y !! 2;
  rhs ← setitem rhs 0 (nmul (nneg k0) y0);
  rhs ← setitem rhs 1 (nsub (nmul k0 y0) (nmul (nadd (nadd k1 k3) k4) y1));
  rhs ← setitem rhs 2 (nsub (nmul k1 y1) (nmul k2 y2));
  rhs ← setitem rhs 3 (nmul k2 y2);
  rhs ← setitem rhs 4 (nmul k3 y1);
  rhs ← setitem rhs 5 (nmul k4 y1);
  Some rhs.

(** ** The Monte Carlo driver [plot_samples] *)

(** [np.linspace(start, stop, num)] with [num = cnt]: [arange(cnt) * step + start] with the
    last point set to [stop]. *)
Definition linspace (start stop : float) (cnt : nat) : list num :=
  if decide (1 < cnt) then
    let div := (cnt - 1)%nat in
    let step := ((stop - start) / Z_to_float (Z.of_nat div))%float in
    map (fun i => if decide (i = div) then F stop
                  else F (Z_to_float (Z.of_nat i) * step + start)%float)
      (seq 0 cnt)
  else replicate cnt (F start).

Section Propagate.
(** The global random source (numpy's generator state) and a standard
    normal draw from it; [np_exp] is numpy's float64 exponential. *)
Context {G : Type} (std_normal : G -> float * G) (np_exp : float -> float).

(** [norm.rvs(loc=loc, scale=scale)]: a negative or NaN scale is a
    ValueError; otherwise [z * scale + loc] for a standard normal [z]. *)
Definition norm_rvs (loc scale : float) (g : G) : option (num * G) :=
  if (0 <=? scale)%float then
    let (z, g') := std_normal g in Some (F (z * scale + loc)%float, g')
  else None.

Context (mu1 sig1 mu2 sig2 mu3 sig3 mu4 sig4 mu5 sig5 : float).

(** The initial state [(500., 0., 0., 0., 0., 0.)]. *)
Definition y0_catalysis : vec :=
  map F [500; 0; 0; 0; 0; 0]%float.

(** One iteration of [for i in xrange(num_samples)] over the grid [t]:
    five draws, [kappa = np.exp([xi1, ..., xi5]) / 180.], one call of
    [rk45]; its result is the trajectory the iteration plots. *)
Definition sample_once (t : list num) (g : G) : option (list vec * G) :=
  '(xi1, g) ← norm_rvs mu1 sig1 g;
  '(xi2, g) ← norm_rvs mu2 sig2 g;
  '(xi3, g) ← norm_rvs mu3 sig3 g;
  '(xi4, g) ← norm_rvs mu4 sig4 g;
  '(xi5, g) ← norm_rvs mu5 sig5 g;
  let kappa := map (fun xi => F (np_exp (tof xi) / 180)%float)
                 [xi1; xi2; xi3; xi4; xi5] in
  y ← rk45 f_catalysis y0_catalysis t kappa;
  Some (y, g).

Fixpoint sample_loop (t : list num) (k : nat) (g : G)
    : option (list (list vec) * G) :=
  match k with
  | O => Some ([], g)
  | S k' =>
      '(y, g) ← sample_once t g;
      '(ys, g) ← sample_loop t k' g;
      Some (y :: ys, g)
  end.

(** [plot_samples(mu1, sig1, ..., mu5, sig5, num_samples)]: the ensemble is
    the list of trajectories it plots, in sample order. *)
Definition plot_samples (num_samples : Z) (g : G)
    : option (list (list vec) * G) :=
  let t := linspace 0 180 100 in
  sample_loop t (Z.to_nat num_samples) g.
End Propagate.

(** [compare_model_to_data(xi1, ..., xi5)]: the model run it plots, over
    [t = np.linspace(0, 180, 100)] with
    [kappa = np.exp([xi1, ..., xi5]) / 180.]; [np_exp] is numpy's float64
    exponential. *)
Definition compare_model_to_data (np_exp : float -> float)
    (xi1 xi2 xi3 xi4 xi5 : float) : option (list vec) :=
  let t := linspace 0 180 100 in
  let kappa := map (fun xi => F (np_exp xi / 180)%float)
                 [xi1; xi2; xi3; xi4; xi5] in
  rk45 f_catalysis y0_catalysis t kappa.

(** * Vocabulary of the statements *)

(** Length of [u + v] for [length u = n], [length v = m]. *)
Definition bl (n m : nat) : nat := if decide (m = 1) then n else m.

(** Lengths numpy can broadcast together. *)
Definition compat (n m : nat) : Prop := n = m \/ n = 1 \/ m = 1.

(** A right-hand side as the spec requires it: on a state of length [n]
    it returns (without raising) a derivative of the same length. *)
Definition rhs_ok {A} (f : vec -> num -> A -> option vec) (args : A)
    (n : nat) : Prop :=
  forall r tt, length r = n ->
  exists out, f r tt args = Some out /\ length out = n.

(** An initial state of one numpy kind: all floats or all ints. *)
Definition homogeneous (y0 : vec) : bool :=
  forallb is_F y0 || forallb (fun x => negb (is_F x)) y0.

(** Right-hand sides used as concrete inputs below (no [args]). *)
Definition f_pulse (y : vec) (t : num) (_ : unit) : option vec :=
  if (tof t =? 0)%float then Some [F 1%float] else Some [F 0%float].

Definition f_zero (y : vec) (t : num) (_ : unit) : option vec :=
  Some (map (fun _ => F 0%float) y).

Definition f_half (y : vec) (t : num) (_ : unit) : option vec :=
  Some [F 0.5%float].

Definition f_three (y : vec) (t : num) (_ : unit) : option vec :=
  Some (map F [1; 2; 3]%float).

(** A random source for concrete runs: a counter, every draw 0. *)
Definition zero_normal (g : nat) : float * nat := (0%float, S g).

(** * Shapes: when numpy's broadcasting succeeds, and the length it gives *)

Lemma length_vscale s v : length (vscale s v) = length v.
Proof. apply length_map. Qed.

Lemma vadd_len (u v : vec) :
  compat (length u) (length v) ->
  exists w, vadd u v = Some w /\ length w = bl (length u) (length v).
Proof.
  intros Hc. unfold vadd, bcast, bl.
  destruct (decide (length u = length v)) as [E|E].
  - eexists; split; [reflexivity|]. rewrite length_zip_with.
    destruct (decide (length v = 1)); lia.
  - unfold compat in Hc.
    destruct u as [|a [|a' u]], v as [|b [|b' v]]; simpl in *;
      try (exfalso; lia); eexists; (split; [reflexivity|]);
      simpl; rewrite ?length_map; repeat case_decide; simpl in *; lia.
Qed.

Lemma vadd_none (u v : vec) :
  ~ compat (length u) (length v) -> vadd u v = None.
Proof.
  intros Hc. unfold compat in Hc. unfold vadd, bcast.
  destruct (decide (length u = length v)) as [E|E]; [tauto|].
  destruct u as [|a [|a' u]], v as [|b [|b' v]]; simpl in *;
    try reflexivity; exfalso; lia.
Qed.

Lemma lincomb_fold_none (terms : list (float * vec)) :
  fold_left (fun acc ck => a ← acc; vadd a (vscale (F ck.1) ck.2))
    terms None = None.
Proof. induction terms; simpl; auto. Qed.

Lemma lincomb_nil (base : vec) : lincomb base [] = Some base.
Proof. reflexivity. Qed.

Lemma lincomb_cons (base : vec) c k terms :
  lincomb base ((c, k) :: terms) =
  (a ← vadd base (vscale (F c) k); lincomb a terms).
Proof.
  unfold lincomb. simpl. destruct (vadd base _); simpl; auto.
  apply lincomb_fold_none.
Qed.

Lemma lincomb_len (m : nat) (terms : list (float * vec)) :
  Forall (fun ck => length ck.2 = m) terms -> terms <> [] ->
  forall base, compat (length base) m ->
  exists v, lincomb base terms = Some v /\ length v = bl (length base) m.
Proof.
  induction 1 as [|[c k] terms Hk Hall IH]; [congruence|].
  intros _ base Hc. simpl in Hk. rewrite lincomb_cons.
  destruct (vadd_len base (vscale (F c) k)) as (w & Hw & Hlw).
  { rewrite length_vscale, Hk. done. }
  rewrite Hw. simpl. rewrite length_vscale, Hk in Hlw.
  destruct terms as [|ck terms].
  - exists w. auto.
  - destruct (IH ltac:(discriminate) w) as (v & Hv & Hlv).
    + unfold compat, bl in *. rewrite Hlw. case_decide; lia.
    + exists v. split; [done|]. rewrite Hlv, Hlw. unfold bl.
      repeat case_decide; lia.
Qed.

Lemma lincomb_first_none (base : vec) c k terms :
  ~ compat (length base) (length k) ->
  lincomb base ((c, k) :: terms) = None.
Proof.
  intros Hc. rewrite lincomb_cons, vadd_none; [done|].
  rewrite length_vscale. done.
Qed.

Lemma assign_row_len (dt : dtype) (old v : vec) :
  length v = length old \/ length v = 1 ->
  exists r, assign_row dt old v = Some r /\ length r = length old.
Proof.
  intros Hv. unfold assign_row. case_decide.
  - eexists; split; [reflexivity|]. rewrite length_map. done.
  - destruct v as [|x [|x' v]]; simpl in *; try lia.
    eexists; split; [reflexivity|]. apply length_replicate.
Qed.

Lemma assign_row_none (dt : dtype) (old v : vec) :
  length v <> length old -> length v <> 1 -> assign_row dt old v = None.
Proof.
  intros H1 H2. unfold assign_row. case_decide; [lia|].
  destruct v as [|x [|x' v]]; simpl in *; done || lia.
Qed.

Ltac bind_simpl := cbn [mbind option_bind].

(** One RKF45 step on shapes: [yi] has length [n]; [f] returns vectors of
    length [m] for the inputs a step gives it. *)
Section StepShapes.
Context {A : Type} (f : vec -> num -> A -> option vec) (args : A).
Context (n m : nat) (Hcm : compat n m).
Hypothesis Hf : forall r tt, length r = n \/ length r = bl n m ->
  exists out, f r tt args = Some out /\ length out = m.

Lemma stage_len h (r : vec) tt :
  length r = n \/ length r = bl n m ->
  exists k, stage f args h r tt = Some k /\ length k = m.
Proof.
  intros Hr. destruct (Hf r tt Hr) as (out & Ho & Hl).
  unfold stage. rewrite Ho. bind_simpl. eexists; split; [reflexivity|].
  rewrite length_vscale. done.
Qed.

Ltac run_stage :=
  match goal with
  | |- context [stage f args ?h ?r ?tt] =>
      let k := fresh "k" in let Hk := fresh "Hk" in let Lk := fresh "Lk" in
      destruct (stage_len h r tt) as (k & Hk & Lk);
      [auto | rewrite Hk; bind_simpl]
  end.

Ltac run_lincomb Hy :=
  match goal with
  | |- context [lincomb ?b ?ts] =>
      let x := fresh "x" in let Hx := fresh "Hx" in let Lx := fresh "Lx" in
      destruct (lincomb_len m ts ltac:(repeat constructor; assumption)
                  ltac:(discriminate) b ltac:(rewrite Hy; exact Hcm))
        as (x & Hx & Lx);
      rewrite Hx; bind_simpl; rewrite Hy in Lx
  end.

Lemma ks_len h (yi : vec) ti :
  length yi = n ->
  exists ks, rkf45_ks f args h yi ti = Some ks /\
    Forall (fun k => length k = m)
      [sk1 ks; sk2 ks; sk3 ks; sk4 ks; sk5 ks; sk6 ks].
Proof.
  intros Hy. unfold rkf45_ks.
  run_stage. run_lincomb Hy. run_stage. run_lincomb Hy. run_stage.
  run_lincomb Hy. run_stage. run_lincomb Hy. run_stage. run_lincomb Hy.
  run_stage. eexists; split; [reflexivity|]. simpl.
  repeat constructor; assumption.
Qed.

Lemma est4_len ks (yi : vec) :
  length yi = n ->
  Forall (fun k => length k = m)
    [sk1 ks; sk2 ks; sk3 ks; sk4 ks; sk5 ks; sk6 ks] ->
  exists v, est4 ks yi = Some v /\ length v = bl n m.
Proof.
  intros Hy Hk. repeat (apply Forall_cons in Hk as [? Hk]).
  unfold est4. rewrite <- Hy. apply lincomb_len; [|discriminate|].
  - repeat constructor; assumption.
  - rewrite Hy. exact Hcm.
Qed.

Lemma est5_len ks (yi : vec) :
  length yi = n ->
  Forall (fun k => length k = m)
    [sk1 ks; sk2 ks; sk3 ks; sk4 ks; sk5 ks; sk6 ks] ->
  exists v, est5 ks yi = Some v /\ length v = bl n m.
Proof.
  intros Hy Hk. repeat (apply Forall_cons in Hk as [? Hk]).
  unfold est5. rewrite <- Hy. apply lincomb_len; [|discriminate|].
  - repeat constructor; assumption.
  - rewrite Hy. exact Hcm.
Qed.
End StepShapes.

Lemma assign_row_some_len (dt : dtype) (old v r : vec) :
  assign_row dt old v = Some r -> length r = length old.
Proof.
  unfold assign_row. case_decide.
  - intros [= <-]. rewrite length_map. done.
  - destruct v as [|x [|x' v]]; try discriminate.
    intros [= <-]. apply length_replicate.
Qed.

(** * The integration loop *)

Ltac inv_bind H :=
  match type of H with
  | context [?x ≫= _] =>
      let E := fresh "E" in
      destruct x eqn:E; cbn [mbind option_bind] in H; [|discriminate]
  end.

Section Loop.
Context {A : Type} (f : vec -> num -> A -> option vec) (args : A).
Context (t : list num) (dt : dtype).

Lemma rk45_body_inv i (y y' : list vec) :
  rk45_body f args t dt i y = Some y' ->
  exists yi ti ti1 ks y4 old row,
    y !! i = Some yi /\ t !! i = Some ti /\ t !! S i = Some ti1 /\
    rkf45_ks f args (nsub ti1 ti) yi ti = Some ks /\
    est4 ks yi = Some y4 /\ y !! S i = Some old /\
    assign_row dt old y4 = Some row /\ y' = <[S i := row]> y.
Proof.
  unfold rk45_body. intros H.
  repeat inv_bind H. injection H as <-.
  do 7 eexists. repeat split; eassumption.
Qed.

Lemma rk45_loop_length k i (y Y : list vec) :
  rk45_loop f args t dt k i y = Some Y -> length Y = length y.
Proof.
  revert i y. induction k as [|k IH]; simpl; intros i y H.
  - injection H as <-. done.
  - inv_bind H. apply IH in H. rewrite H.
    apply rk45_body_inv in E as (? & ? & ? & ? & ? & ? & ? & ? & ? & ? & ? & ?
                                   & ? & ? & ->).
    apply length_insert.
Qed.

(** The loop never writes an index [<= i]. *)
Lemma rk45_loop_prefix k i (y Y : list vec) :
  rk45_loop f args t dt k i y = Some Y ->
  forall j, j <= i -> Y !! j = y !! j.
Proof.
  revert i y. induction k as [|k IH]; simpl; intros i y H j Hj.
  - injection H as <-. done.
  - inv_bind H. rewrite (IH _ _ H j) by lia.
    apply rk45_body_inv in E as (? & ? & ? & ? & ? & ? & ? & ? & ? & ? & ? & ?
                                   & ? & ? & ->).
    apply list_lookup_insert_ne. lia.
Qed.

(** Entry [j+1] is the 4th-order estimate from entry [j], stored into the
    row it replaces. *)
Lemma rk45_loop_rec k i (y Y : list vec) :
  rk45_loop f args t dt k i y = Some Y ->
  forall j, i <= j < i + k ->
  exists yj tj tj1 ks y4 old,
    Y !! j = Some yj /\ t !! j = Some tj /\ t !! S j = Some tj1 /\
    rkf45_ks f args (nsub tj1 tj) yj tj = Some ks /\
    est4 ks yj = Some y4 /\ y !! S j = Some old /\
    Y !! S j = assign_row dt old y4.
Proof.
  revert i y. induction k as [|k IH]; simpl; intros i y H j Hj; [lia|].
  inv_bind H. rename l into y1.
  pose proof E as E'.
  apply rk45_body_inv in E' as (yi & ti & ti1 & ks & y4 & old & row & Hyi & Hti
                                  & Hti1 & Hks & Hy4 & Hold & Hrow & ->).
  destruct (decide (j = i)) as [->|Hne].
  - exists yi, ti, ti1, ks, y4, old. repeat split; try assumption.
    + rewrite (rk45_loop_prefix _ _ _ _ H i) by lia.
      rewrite list_lookup_insert_ne by lia. done.
    + rewrite (rk45_loop_prefix _ _ _ _ H (S i)) by lia.
      rewrite list_lookup_insert_eq; [done|].
      apply lookup_lt_Some in Hold. done.
  - destruct (IH _ _ H j ltac:(lia))
      as (yj & tj & tj1 & ks' & y4' & old' & ? & ? & ? & ? & ? & Hold' & ?).
    exists yj, tj, tj1, ks', y4', old'. repeat split; try assumption.
    rewrite list_lookup_insert_ne in Hold' by lia. done.
Qed.
End Loop.

(** When [f] returns vectors of a length [m] that broadcasts against the
    state without changing its length ([m = n] or [m = 1]), every step
    succeeds. *)
Section LoopShapes.
Context {A : Type} (f : vec -> num -> A -> option vec) (args : A).
Context (t : list num) (dt : dtype) (n m : nat).
Hypothesis Hm : m = n \/ m = 1.
Hypothesis Hf : forall r tt, length r = n ->
  exists out, f r tt args = Some out /\ length out = m.

Lemma Hcm_of : compat n m.
Proof. unfold compat. lia. Qed.

Lemma bl_n : bl n m = n.
Proof. unfold bl. case_decide; lia. Qed.

Lemma Hf' : forall r tt, length r = n \/ length r = bl n m ->
  exists out, f r tt args = Some out /\ length out = m.
Proof. intros r tt Hr. rewrite bl_n in Hr. apply Hf. tauto. Qed.

Lemma rk45_body_some i (y : list vec) :
  S i < length t -> length y = length t -> Forall (fun r => length r = n) y ->
  exists y', rk45_body f args t dt i y = Some y' /\
    rk45_body_no_y5 f args t dt i y = Some y' /\
    length y' = length y /\ Forall (fun r => length r = n) y'.
Proof.
  intros Hi Hly Hall.
  destruct (lookup_lt_is_Some_2 y i ltac:(lia)) as [yi Hyi].
  destruct (lookup_lt_is_Some_2 y (S i) ltac:(lia)) as [old Hold].
  destruct (lookup_lt_is_Some_2 t i ltac:(lia)) as [ti Hti].
  destruct (lookup_lt_is_Some_2 t (S i) ltac:(lia)) as [ti1 Hti1].
  pose proof (Forall_lookup_1 _ _ _ _ Hall Hyi) as Lyi.
  pose proof (Forall_lookup_1 _ _ _ _ Hall Hold) as Lold.
  simpl in Lyi, Lold.
  destruct (ks_len f args n m Hcm_of Hf' (nsub ti1 ti) yi ti Lyi)
    as (ks & Hks & Lks).
  destruct (est4_len n m Hcm_of ks yi Lyi Lks) as (y4 & Hy4 & Ly4).
  destruct (est5_len n m Hcm_of ks yi Lyi Lks) as (y5 & Hy5 & _).
  rewrite bl_n in Ly4.
  destruct (assign_row_len dt old y4 ltac:(lia)) as (row & Hrow & Lrow).
  exists (<[S i := row]> y).
  unfold rk45_body, rk45_body_no_y5.
  rewrite Hyi, Hti, Hti1. bind_simpl. rewrite Hks. bind_simpl.
  rewrite Hy4. bind_simpl. rewrite Hold. bind_simpl. rewrite Hrow.
  bind_simpl. rewrite Hy5. bind_simpl.
  split; [done|]. split; [done|]. split; [apply length_insert|].
  apply Forall_insert; [done|]. simpl. lia.
Qed.

Lemma rk45_loop_some k i (y : list vec) :
  (k = 0 \/ i + k < length t) ->
  length y = length t -> Forall (fun r => length r = n) y ->
  exists Y, rk45_loop f args t dt k i y = Some Y /\
    rk45_loop_no_y5 f args t dt k i y = Some Y /\
    length Y = length t /\ Forall (fun r => length r = n) Y.
Proof.
  revert i y. induction k as [|k IH]; intros i y Hk Hly Hall.
  - exists y. simpl. auto.
  - destruct (rk45_body_some i y ltac:(lia) Hly Hall)
      as (y' & H1 & H2 & Hl' & Hall').
    destruct (IH (S i) y' ltac:(lia) ltac:(lia) Hall')
      as (Y & HY1 & HY2 & HlY & HallY).
    exists Y. simpl. rewrite H1, H2. bind_simpl. auto.
Qed.
End LoopShapes.

Lemma rk45_some_len {A} (f : vec -> num -> A -> option vec) (args : A)
    (y0 : vec) (t : list num) (m : nat) :
  (m = length y0 \/ m = 1) ->
  (forall r tt, length r = length y0 ->
     exists out, f r tt args = Some out /\ length out = m) ->
  exists Y, rk45 f y0 t args = Some Y /\ rk45_no_y5 f y0 t args = Some Y /\
    length Y = length t /\ Forall (fun r => length r = length y0) Y.
Proof.
  intros Hm Hf. unfold rk45, rk45_no_y5.
  apply (rk45_loop_some f args t (dtype_of y0) (length y0) m Hm Hf).
  - lia.
  - apply length_replicate.
  - apply Forall_replicate. apply length_map.
Qed.

Lemma rk45_some {A} (f : vec -> num -> A -> option vec) (args : A)
    (y0 : vec) (t : list num) :
  rhs_ok f args (length y0) ->
  exists Y, rk45 f y0 t args = Some Y /\ rk45_no_y5 f y0 t args = Some Y /\
    length Y = length t /\ Forall (fun r => length r = length y0) Y.
Proof. intros Hf. apply (rk45_some_len f args y0 t (length y0)); auto. Qed.

(** * Facts about whole runs of [rk45] *)

Lemma map_cast_float (l : vec) :
  forallb is_F l = true -> map (cast Float64) l = l.
Proof.
  induction l as [|[z|r] l IH]; simpl; intros H; try discriminate; [done|].
  rewrite IH; done.
Qed.

Lemma map_cast_int (l : vec) :
  forallb (fun x => negb (is_F x)) l = true -> map (cast Int64) l = l.
Proof.
  induction l as [|[z|r] l IH]; simpl; intros H; try discriminate; [done|].
  rewrite IH; done.
Qed.

Lemma existsb_is_F_false (l : vec) :
  forallb (fun x => negb (is_F x)) l = true -> existsb is_F l = false.
Proof.
  induction l as [|[z|r] l IH]; simpl; intros H; try discriminate; auto.
Qed.

Lemma existsb_is_F_true (x : num) (l : vec) :
  forallb is_F (x :: l) = true -> existsb is_F (x :: l) = true.
Proof. destruct x; simpl; auto. discriminate. Qed.

Lemma cast_homogeneous (y0 : vec) :
  homogeneous y0 = true -> map (cast (dtype_of y0)) y0 = y0.
Proof.
  unfold homogeneous. intros H. destruct y0 as [|x l]; [done|].
  apply orb_true_iff in H as [H|H].
  - unfold dtype_of. rewrite existsb_is_F_true by done.
    apply map_cast_float. done.
  - unfold dtype_of. rewrite existsb_is_F_false by done.
    apply map_cast_int. done.
Qed.

Lemma rk45_rec {A} (f : vec -> num -> A -> option vec) (args : A)
    (y0 : vec) (t : list num) (Y : list vec) :
  rk45 f y0 t args = Some Y ->
  forall i, S i < length t ->
  exists yi ti ti1 ks y4,
    Y !! i = Some yi /\ t !! i = Some ti /\ t !! S i = Some ti1 /\
    rkf45_ks f args (nsub ti1 ti) yi ti = Some ks /\
    est4 ks yi = Some y4 /\
    Y !! S i = assign_row (dtype_of y0) (map (cast (dtype_of y0)) y0) y4.
Proof.
  unfold rk45. intros H i Hi.
  destruct (rk45_loop_rec f args t _ _ _ _ _ H i ltac:(lia))
    as (yi & ti & ti1 & ks & y4 & old & ? & ? & ? & ? & ? & Hold & HY).
  rewrite lookup_replicate in Hold. destruct Hold as [<- _].
  exists yi, ti, ti1, ks, y4. repeat split; assumption.
Qed.

Lemma rk45_length {A} (f : vec -> num -> A -> option vec) (args : A)
    (y0 : vec) (t : list num) (Y : list vec) :
  rk45 f y0 t args = Some Y -> length Y = length t.
Proof.
  unfold rk45. intros H. apply rk45_loop_length in H.
  rewrite H. apply length_replicate.
Qed.

(** * The claims *)

(** C1 (code bug): the 4th-order weight [a1] of the source is the decimal
    [1.157407407407407e-01], which is not the float64 nearest to the
    [25/216] its comment names.  On the right-hand side [f_pulse] (1 at
    [t = 0], 0 elsewhere), [y0 = [0.]], [t = [0., 1.]], the code's entry 1
    is [a1] while the RKF45 recurrence with weight [25/216] gives the
    float64 of [25/216]; the two differ. *)
Theorem rk45_weight_a1_not_25_216 :
  rk45 f_pulse [F 0] [F 0; F 1] tt = Some [[F 0]; [F a1]] /\
  integrate_spec f_pulse tt [F 0] [F 0; F 1]
    = Some [[F 0]; [F (25 / 216)]] /\
  (a1 =? 25 / 216)%float = false.
Proof. split; [|split]; vm_compute; reflexivity. Qed.

(** C2: whenever the integrator returns a trajectory for a grid of at
    least one point and an initial state of one numeric kind (all floats,
    as the spec's double-precision state, or all ints), entry 0 is [y0]
    itself, unchanged. *)
Theorem rk45_entry0_is_y0 {A} (f : vec -> num -> A -> option vec) (args : A)
    (y0 : vec) (t : list num) (Y : list vec) :
  homogeneous y0 = true -> 1 <= length t ->
  rk45 f y0 t args = Some Y -> Y !! 0 = Some y0.
Proof.
  intros Hh Ht H. unfold rk45 in H.
  rewrite (rk45_loop_prefix _ _ _ _ _ _ _ _ H 0) by lia.
  rewrite lookup_replicate_2 by lia. rewrite cast_homogeneous; done.
Qed.

Lemma rk45_entry0_is_y0_witness :
  homogeneous [F 0] = true /\ 1 <= length [F 0; F 1] /\
  rk45 f_pulse [F 0] [F 0; F 1] tt = Some [[F 0]; [F a1]] /\
  [[F 0]; [F a1]] !! 0 = Some [F 0].
Proof.
  assert (H : rk45 f_pulse [F 0] [F 0; F 1] tt = Some [[F 0]; [F a1]])
    by (vm_compute; reflexivity).
  split; [reflexivity|]. split; [simpl; lia|]. split; [exact H|].
  exact (rk45_entry0_is_y0 f_pulse tt [F 0] [F 0; F 1] _
           eq_refl ltac:(simpl; lia) H).
Defined.

(** C3 (counterexample): a one-point grid raises nothing; the integrator
    returns the one-entry trajectory [[y0]], and an empty grid gives an
    empty trajectory. *)
Lemma rk45_short_grid_no_error :
  rk45 f_pulse [F 7] [F 0] tt = Some [[F 7]] /\
  rk45 f_pulse [F 7] [] tt = Some [].
Proof. split; vm_compute; reflexivity. Qed.

(** C3 (amended): with fewer than two grid points the integrator signals
    no error and calls no [f]: it returns one copy of [np.array(y0)] per
    grid point (none for an empty grid). *)
Theorem rk45_short_grid {A} (f : vec -> num -> A -> option vec) (args : A)
    (y0 : vec) (t : list num) :
  length t <= 1 ->
  rk45 f y0 t args = Some (replicate (length t) (map (cast (dtype_of y0)) y0)).
Proof.
  intros Ht. unfold rk45. replace (length t - 1) with 0 by lia. reflexivity.
Qed.

Lemma rk45_short_grid_witness :
  length [F 0] <= 1 /\
  rk45 f_pulse [F 7] [F 0] tt
    = Some (replicate (length [F 0]) (map (cast (dtype_of [F 7])) [F 7])).
Proof.
  split; [simpl; lia|].
  exact (rk45_short_grid f_pulse tt [F 7] [F 0] ltac:(simpl; lia)).
Defined.

(** C4 (counterexample): on the decreasing grid [[1., 0.]] the integrator
    returns a trajectory instead of signalling an error. *)
Lemma rk45_decreasing_grid_no_error :
  rk45 f_zero [F 1] [F 1; F 0] tt = Some [[F 1]; [F 1]].
Proof. vm_compute. reflexivity. Qed.

(** C4 (amended): the grid's order is never checked.  For every grid and
    every right-hand side returning a vector of the state's length, the
    integrator returns a trajectory with one entry per grid point, entry
    [i+1] being the stored 4th-order estimate from entry [i] with
    [h = t[i+1] - t[i]], whatever the sign of [h]. *)
Theorem rk45_any_grid {A} (f : vec -> num -> A -> option vec) (args : A)
    (y0 : vec) (t : list num) :
  rhs_ok f args (length y0) ->
  exists Y, rk45 f y0 t args = Some Y /\ length Y = length t /\
  forall i, S i < length t ->
  exists yi ti ti1 ks y4,
    Y !! i = Some yi /\ t !! i = Some ti /\ t !! S i = Some ti1 /\
    rkf45_ks f args (nsub ti1 ti) yi ti = Some ks /\
    est4 ks yi = Some y4 /\
    Y !! S i = assign_row (dtype_of y0) (map (cast (dtype_of y0)) y0) y4.
Proof.
  intros Hf. destruct (rk45_some f args y0 t Hf) as (Y & HY & _ & HlY & _).
  exists Y. split; [done|]. split; [done|].
  apply rk45_rec. done.
Qed.

Lemma f_zero_ok (n : nat) : rhs_ok f_zero tt n.
Proof.
  intros r tt' Hr. eexists; split; [reflexivity|].
  rewrite length_map. done.
Qed.

Lemma rk45_any_grid_witness :
  rhs_ok f_zero tt (length [F 1]) /\
  exists Y, rk45 f_zero [F 1] [F 1; F 0] tt = Some Y /\
    length Y = length [F 1; F 0] /\
  forall i, S i < length [F 1; F 0] ->
  exists yi ti ti1 ks y4,
    Y !! i = Some yi /\ [F 1; F 0] !! i = Some ti /\
    [F 1; F 0] !! S i = Some ti1 /\
    rkf45_ks f_zero tt (nsub ti1 ti) yi ti = Some ks /\
    est4 ks yi = Some y4 /\
    Y !! S i = assign_row (dtype_of [F 1]) (map (cast (dtype_of [F 1])) [F 1]) y4.
Proof.
  split; [apply f_zero_ok|].
  exact (rk45_any_grid f_zero tt [F 1] [F 1; F 0] (f_zero_ok _)).
Defined.

(** With a derivative of a length [m] that broadcasts against neither the
    state nor a length-1 vector, the first step raises. *)
Lemma rk45_body_mismatch {A} (f : vec -> num -> A -> option vec) (args : A)
    (t : list num) (dt : dtype) (n m : nat) (y : list vec) (yi : vec) :
  m <> n -> m <> 1 ->
  (forall r tt, exists out, f r tt args = Some out /\ length out = m) ->
  y !! 0 = Some yi -> length yi = n -> y !! 1 = Some yi ->
  rk45_body f args t dt 0 y = None.
Proof.
  intros Hmn Hm1 Hf Hy0 Hyi Hy1.
  assert (Hf' : forall r tt, length r = n \/ length r = bl n m ->
            exists out, f r tt args = Some out /\ length out = m)
    by (intros r tt _; apply Hf).
  unfold rk45_body. rewrite Hy0. bind_simpl.
  destruct (t !! 0) as [ti|]; bind_simpl; [|done].
  destruct (t !! 1) as [ti1|]; bind_simpl; [|done].
  destruct (decide (n = 1)) as [->|Hn1].
  - destruct (ks_len f args 1 m ltac:(unfold compat; lia) Hf'
                (nsub ti1 ti) yi ti Hyi) as (ks & Hks & Lks).
    rewrite Hks. bind_simpl.
    destruct (est4_len 1 m ltac:(unfold compat; lia) ks yi Hyi Lks)
      as (y4 & Hy4 & Ly4).
    rewrite Hy4. bind_simpl. rewrite Hy1. bind_simpl.
    unfold bl in Ly4. case_decide; [lia|].
    rewrite assign_row_none; [done| |]; lia.
  - unfold rkf45_ks, stage.
    destruct (Hf yi ti) as (out & Hout & Lout). rewrite Hout. bind_simpl.
    rewrite lincomb_first_none; [done|].
    rewrite length_vscale. unfold compat. lia.
Qed.

(** C5 (counterexample): [y0] of length 2 and an [f] returning a length-1
    vector: no shape error, a trajectory is returned (numpy broadcasts). *)
Lemma rk45_length_mismatch_broadcast :
  rk45 f_half [F 1; F 2] [F 0; F 1] tt
    = Some [[F 1; F 2]; [F 1.4999999999999998; F 2.5]].
Proof. vm_compute. reflexivity. Qed.

(** C5 (amended): a length mismatch between [y0] and [f]'s result is not
    checked before stepping.  For an [f] that always returns vectors of a
    fixed length [m <> len(y0)] and a grid of at least two points: if
    [m = 1] the result is broadcast over the state and a full trajectory is
    returned; otherwise the first step raises and no trajectory is
    returned. *)
Theorem rk45_length_mismatch {A} (f : vec -> num -> A -> option vec)
    (args : A) (y0 : vec) (t : list num) (m : nat) :
  m <> length y0 ->
  (forall r tt, exists out, f r tt args = Some out /\ length out = m) ->
  2 <= length t ->
  (m = 1 -> exists Y, rk45 f y0 t args = Some Y /\ length Y = length t) /\
  (m <> 1 -> rk45 f y0 t args = None).
Proof.
  intros Hmn Hf Ht. split.
  - intros ->. destruct (rk45_some_len f args y0 t 1 ltac:(auto)
                           ltac:(intros r tt _; apply Hf))
      as (Y & HY & _ & HlY & _).
    eauto.
  - intros Hm1. unfold rk45.
    destruct (length t - 1) as [|k] eqn:Ek; [lia|]. simpl.
    rewrite (rk45_body_mismatch f args t _ (length y0) m _
               (map (cast (dtype_of y0)) y0) Hmn Hm1 Hf).
    + done.
    + apply lookup_replicate_2. lia.
    + apply length_map.
    + apply lookup_replicate_2. lia.
Qed.

Lemma f_three_len (r : vec) (tt' : num) :
  exists out, f_three r tt' tt = Some out /\ length out = 3.
Proof. eexists; split; reflexivity. Qed.

Lemma rk45_length_mismatch_witness :
  3 <> length [F 1; F 2] /\ 2 <= length [F 0; F 1] /\
  rk45 f_three [F 1; F 2] [F 0; F 1] tt = None.
Proof.
  split; [simpl; lia|]. split; [simpl; lia|].
  apply (rk45_length_mismatch f_three tt [F 1; F 2] [F 0; F 1] 3
           ltac:(simpl; lia) (fun r tt' => f_three_len r tt')
           ltac:(simpl; lia)).
  lia.
Defined.

(** C6 (counterexample): [num_samples = 0] raises nothing; the loop body
    never runs and the ensemble is empty. *)
Lemma plot_samples_zero_no_error :
  plot_samples zero_normal (fun x => x)
    1.359 0.055 1.657 0.086 1.347 0.118 (-0.162) 0.167 (-1.009) 0.368
    0 0%nat = Some ([], 0%nat).
Proof. reflexivity. Qed.

(** C6 (amended): for [num_samples < 1], [xrange(num_samples)] is empty:
    no draw is made, no error is signalled, and the ensemble is empty. *)
Theorem plot_samples_nonpositive {G} (std_normal : G -> float * G)
    (np_exp : float -> float)
    (mu1 sig1 mu2 sig2 mu3 sig3 mu4 sig4 mu5 sig5 : float)
    (num_samples : Z) (g : G) :
  (num_samples < 1)%Z ->
  plot_samples std_normal np_exp mu1 sig1 mu2 sig2 mu3 sig3 mu4 sig4 mu5 sig5
    num_samples g = Some ([], g).
Proof.
  intros H. unfold plot_samples.
  replace (Z.to_nat num_samples) with 0%nat by lia. reflexivity.
Qed.

Lemma plot_samples_nonpositive_witness :
  (-3 < 1)%Z /\
  plot_samples zero_normal (fun x => x)
    1.359 0.055 1.657 0.086 1.347 0.118 (-0.162) 0.167 (-1.009) 0.368
    (-3) 5%nat = Some ([], 5%nat).
Proof.
  split; [lia|].
  exact (plot_samples_nonpositive zero_normal (fun x => x)
    1.359 0.055 1.657 0.086 1.347 0.118 (-0.162) 0.167 (-1.009) 0.368
    (-3) 5%nat ltac:(lia)).
Defined.

(** C7: the 5th-order estimate is never used.  For every right-hand side
    returning a vector of the state's length, [rk45] returns exactly what
    the same code with the [y5] line deleted returns, for every grid. *)
Theorem rk45_fifth_order_unused {A} (f : vec -> num -> A -> option vec)
    (args : A) (y0 : vec) (t : list num) :
  rhs_ok f args (length y0) ->
  rk45 f y0 t args = rk45_no_y5 f y0 t args.
Proof.
  intros Hf. destruct (rk45_some f args y0 t Hf) as (Y & H1 & H2 & _).
  rewrite H1, H2. done.
Qed.

Lemma rk45_fifth_order_unused_witness :
  rhs_ok f_zero tt (length [F 1; F 2]) /\
  rk45 f_zero [F 1; F 2] [F 0; F 1; F 3] tt
    = rk45_no_y5 f_zero [F 1; F 2] [F 0; F 1; F 3] tt.
Proof.
  split; [apply f_zero_ok|].
  exact (rk45_fifth_order_unused f_zero tt [F 1; F 2] [F 0; F 1; F 3]
           (f_zero_ok _)).
Defined.

Lemma f_catalysis_ok (kappa : vec) :
  length kappa = 5 -> rhs_ok f_catalysis kappa 6.
Proof.
  intros Hk r tt Hr.
  destruct kappa as [|k0 [|k1 [|k2 [|k3 [|k4 [|k5 kappa]]]]]];
    simpl in Hk; try lia.
  destruct r as [|y0 [|y1 [|y2 [|y3 [|y4 [|y5 [|y6 r]]]]]]];
    simpl in Hr; try lia.
  eexists; split; reflexivity.
Qed.

Section PropagateFacts.
Context {G : Type} (std_normal : G -> float * G) (np_exp : float -> float).
Context (mu1 sig1 mu2 sig2 mu3 sig3 mu4 sig4 mu5 sig5 : float).
Hypothesis Hs1 : (0 <=? sig1)%float = true.
Hypothesis Hs2 : (0 <=? sig2)%float = true.
Hypothesis Hs3 : (0 <=? sig3)%float = true.
Hypothesis Hs4 : (0 <=? sig4)%float = true.
Hypothesis Hs5 : (0 <=? sig5)%float = true.

Lemma sample_once_some (t : list num) (g : G) :
  exists Y g', sample_once std_normal np_exp mu1 sig1 mu2 sig2 mu3 sig3
                 mu4 sig4 mu5 sig5 t g = Some (Y, g') /\ length Y = length t.
Proof.
  unfold sample_once, norm_rvs.
  rewrite Hs1. destruct (std_normal g) as [z1 g1]. bind_simpl.
  rewrite Hs2. destruct (std_normal g1) as [z2 g2]. bind_simpl.
  rewrite Hs3. destruct (std_normal g2) as [z3 g3]. bind_simpl.
  rewrite Hs4. destruct (std_normal g3) as [z4 g4]. bind_simpl.
  rewrite Hs5. destruct (std_normal g4) as [z5 g5]. bind_simpl.
  match goal with
  | |- context [rk45 f_catalysis y0_catalysis t ?kap] =>
      destruct (rk45_some f_catalysis kap y0_catalysis t
                  (f_catalysis_ok kap eq_refl)) as (Y & HY & _ & HlY & _)
  end.
  rewrite HY. bind_simpl. eauto.
Qed.

Lemma sample_loop_some (t : list num) (k : nat) (g : G) :
  exists E g', sample_loop std_normal np_exp mu1 sig1 mu2 sig2 mu3 sig3
                 mu4 sig4 mu5 sig5 t k g = Some (E, g') /\
    length E = k /\ Forall (fun Y => length Y = length t) E.
Proof.
  revert g. induction k as [|k IH]; intros g; simpl.
  - eauto.
  - destruct (sample_once_some t g) as (Y & g1 & H1 & HlY).
    rewrite H1. bind_simpl.
    destruct (IH g1) as (E & g2 & H2 & HlE & HE). rewrite H2. bind_simpl.
    exists (Y :: E), g2. simpl. auto.
Qed.
End PropagateFacts.

(** C8: on a six-component state and rates [kappa = [k1; ...; k5]],
    [f_catalysis] returns (without raising, and as a pure function of its
    arguments) exactly the derivative of the linear catalysis dynamics. *)
Theorem f_catalysis_derivative (y0 y1 y2 y3 y4 y5 : num) (t : num)
    (k1 k2 k3 k4 k5 : float) :
  f_catalysis [y0; y1; y2; y3; y4; y5] t (map F [k1; k2; k3; k4; k5])
  = Some (map F
      [(- k1) * tof y0;
       k1 * tof y0 - (k2 + k4 + k5) * tof y1;
       k2 * tof y1 - k3 * tof y2;
       k3 * tof y2;
       k4 * tof y1;
       k5 * tof y1]%float).
Proof. destruct y0, y1, y2; reflexivity. Qed.

(** C9: for [num_samples = N >= 1] (and valid scales), the sample loop
    produces exactly [N] trajectories, each with one entry per point of
    the time grid, for every grid; in [plot_samples] itself the grid is
    [np.linspace(0, 180, 100)], so each trajectory has 100 entries. *)
Theorem plot_samples_ensemble_shape {G} (std_normal : G -> float * G)
    (np_exp : float -> float)
    (mu1 sig1 mu2 sig2 mu3 sig3 mu4 sig4 mu5 sig5 : float)
    (N : Z) (g : G) :
  (1 <= N)%Z ->
  (0 <=? sig1)%float = true -> (0 <=? sig2)%float = true ->
  (0 <=? sig3)%float = true -> (0 <=? sig4)%float = true ->
  (0 <=? sig5)%float = true ->
  (forall t, exists E g', sample_loop std_normal np_exp mu1 sig1 mu2 sig2
       mu3 sig3 mu4 sig4 mu5 sig5 t (Z.to_nat N) g = Some (E, g') /\
     length E = Z.to_nat N /\ Forall (fun Y => length Y = length t) E) /\
  (exists E g', plot_samples std_normal np_exp mu1 sig1 mu2 sig2
       mu3 sig3 mu4 sig4 mu5 sig5 N g = Some (E, g') /\
     length E = Z.to_nat N /\ Forall (fun Y => length Y = 100) E).
Proof.
  intros _ H1 H2 H3 H4 H5. split.
  - intros t. apply sample_loop_some; assumption.
  - unfold plot_samples.
    destruct (sample_loop_some std_normal np_exp mu1 sig1 mu2 sig2 mu3 sig3
                mu4 sig4 mu5 sig5 H1 H2 H3 H4 H5 (linspace 0 180 100)
                (Z.to_nat N) g) as (E & g' & HE & HlE & Hall).
    exists E, g'. split; [done|]. split; [done|].
    replace 100 with (length (linspace 0 180 100)) by reflexivity.
    exact Hall.
Qed.

Lemma plot_samples_ensemble_shape_witness :
  (1 <= 2)%Z /\ (0 <=? 0.055)%float = true /\
  exists E g', plot_samples zero_normal (fun x => x)
    1.359 0.055 1.657 0.086 1.347 0.118 (-0.162) 0.167 (-1.009) 0.368
    2 0%nat = Some (E, g') /\ length E = 2 /\
    Forall (fun Y => length Y = 100) E.
Proof.
  split; [lia|]. split; [reflexivity|].
  exact (proj2 (plot_samples_ensemble_shape zero_normal (fun x => x)
    1.359 0.055 1.657 0.086 1.347 0.118 (-0.162) 0.167 (-1.009) 0.368
    2 0%nat ltac:(lia) eq_refl eq_refl eq_refl eq_refl eq_refl)).
Defined.

Lemma nadd_F (x y : num) : is_F y = true -> is_F (nadd x y) = true.
Proof. destruct x, y; simpl; auto. Qed.

Lemma vscale_F (c : float) (k : vec) : forallb is_F (vscale (F c) k) = true.
Proof. induction k as [|[z|r] k IH]; simpl; auto. Qed.

Lemma zip_with_nadd_F (u v : vec) :
  forallb is_F v = true -> forallb is_F (zip_with nadd u v) = true.
Proof.
  revert v. induction u as [|a u IH]; intros [|b v] Hv; simpl in *; auto.
  apply andb_true_iff in Hv as [Hb Hv]. rewrite nadd_F, IH; auto.
Qed.

Lemma map_nadd_F (a : num) (v : vec) :
  forallb is_F v = true -> forallb is_F (map (nadd a) v) = true.
Proof.
  induction v as [|b v IH]; simpl; intros Hv; auto.
  apply andb_true_iff in Hv as [Hb Hv]. rewrite nadd_F, IH; auto.
Qed.

Lemma map_nadd_r_F (b : num) (u : vec) :
  is_F b = true -> forallb is_F (map (fun a => nadd a b) u) = true.
Proof.
  intros Hb. induction u as [|a u IH]; simpl; auto. rewrite nadd_F; auto.
Qed.

Lemma vadd_scaled_F (u : vec) c k w :
  vadd u (vscale (F c) k) = Some w -> forallb is_F w = true.
Proof.
  pose proof (vscale_F c k) as Hv. revert Hv.
  generalize (vscale (F c) k) as v. intros v Hv H.
  unfold vadd, bcast in H. case_decide.
  - injection H as <-. apply zip_with_nadd_F. done.
  - repeat case_match; simplify_eq.
    + done.
    + apply map_nadd_F. done.
    + apply map_nadd_r_F. simpl in Hv. apply andb_true_iff in Hv. tauto.
Qed.

Lemma lincomb_F (terms : list (float * vec)) :
  terms <> [] -> forall base v, lincomb base terms = Some v ->
  forallb is_F v = true.
Proof.
  induction terms as [|[c k] terms IH]; intros Hne base v H; [congruence|].
  rewrite lincomb_cons in H. inv_bind H. rename l into w.
  destruct terms as [|ck terms].
  - injection H as <-. eapply vadd_scaled_F; eassumption.
  - eapply IH; [discriminate|eassumption].
Qed.

Lemma est4_F ks (yi y4 : vec) : est4 ks yi = Some y4 -> forallb is_F y4 = true.
Proof. unfold est4. apply lincomb_F. discriminate. Qed.

Lemma map_cast_int_of_F (v : vec) :
  forallb is_F v = true ->
  map (cast Int64) v = map (fun x => I (float_to_int64 (tof x))) v.
Proof.
  induction v as [|[z|r] v IH]; simpl; intros H; try discriminate; auto.
  rewrite IH; auto.
Qed.

Lemma assign_row_int (old v r : vec) :
  assign_row Int64 old v = Some r -> forallb (fun x => negb (is_F x)) r = true.
Proof.
  unfold assign_row. case_decide.
  - intros [= <-]. clear. induction v as [|[z|x] v IH]; simpl; auto.
  - destruct v as [|x [|x' v]]; try discriminate. intros [= <-].
    clear. induction (length old) as [|j IH]; simpl; auto. destruct x; simpl; auto.
Qed.

Lemma dtype_of_int (y0 : vec) :
  y0 <> [] -> forallb (fun x => negb (is_F x)) y0 = true ->
  dtype_of y0 = Int64.
Proof.
  intros Hne H. destruct y0 as [|x l]; [congruence|].
  unfold dtype_of. rewrite existsb_is_F_false; done.
Qed.

Lemma assign_row_eq (dt : dtype) (old v : vec) :
  length v = length old -> assign_row dt old v = Some (map (cast dt) v).
Proof. intros H. unfold assign_row. case_decide; [done|contradiction]. Qed.

(** C10: the trajectory array takes its dtype from [y0].  For an initial
    state whose components are all ints, every entry of the returned
    trajectory is int64 and each stored step is the float 4th-order
    estimate truncated toward zero component-wise, with no error; when
    [y0] gives a float64 array the estimate is stored unchanged.  On
    [y0 = (1, -2)] with [f] constantly [[0.5]] and [t = [0., 1.]], the code
    returns [[1, -1]] where the real recurrence gives [[1.5, -1.5]]. *)
Theorem rk45_int_state_truncates :
  (forall (A : Type) (f : vec -> num -> A -> option vec) (args : A)
     (y0 : vec) (t : list num) (Y : list vec),
   y0 <> [] -> forallb (fun x => negb (is_F x)) y0 = true ->
   rk45 f y0 t args = Some Y ->
   Forall (fun r => forallb (fun x => negb (is_F x)) r = true) Y /\
   forall i, S i < length t ->
   exists yi ti ti1 ks y4,
     Y !! i = Some yi /\ t !! i = Some ti /\ t !! S i = Some ti1 /\
     rkf45_ks f args (nsub ti1 ti) yi ti = Some ks /\
     est4 ks yi = Some y4 /\ forallb is_F y4 = true /\
     (length y4 = length y0 ->
      Y !! S i = Some (map (fun x => I (float_to_int64 (tof x))) y4))) /\
  (forall (A : Type) (f : vec -> num -> A -> option vec) (args : A)
     (y0 : vec) (t : list num) (Y : list vec),
   dtype_of y0 = Float64 ->
   rk45 f y0 t args = Some Y ->
   forall i, S i < length t ->
   exists yi ti ti1 ks y4,
     Y !! i = Some yi /\ t !! i = Some ti /\ t !! S i = Some ti1 /\
     rkf45_ks f args (nsub ti1 ti) yi ti = Some ks /\
     est4 ks yi = Some y4 /\
     (length y4 = length y0 -> Y !! S i = Some y4)) /\
  rk45 f_half [I 1; I (-2)] [F 0; F 1] tt
    = Some [[I 1; I (-2)]; [I 1; I (-1)]] /\
  integrate_spec f_half tt [I 1; I (-2)] [F 0; F 1]
    = Some [[I 1; I (-2)]; [F 1.5; F (-1.5)]].
Proof.
  split; [|split; [|split; vm_compute; reflexivity]].
  - intros A f args y0 t Y Hne Hint H.
    pose proof (dtype_of_int y0 Hne Hint) as Hdt.
    pose proof (rk45_length f args y0 t Y H) as HlY.
    split.
    + apply Forall_lookup_2. intros [|i] r Hr.
      * pose proof (lookup_lt_Some _ _ _ Hr) as Hlt.
        unfold rk45 in H.
        rewrite (rk45_loop_prefix _ _ _ _ _ _ _ _ H 0) in Hr by lia.
        rewrite lookup_replicate_2 in Hr by lia. injection Hr as <-.
        rewrite Hdt, map_cast_int; done.
      * pose proof (lookup_lt_Some _ _ _ Hr) as Hlt.
        destruct (rk45_rec f args y0 t Y H i ltac:(lia))
          as (yi & ti & ti1 & ks & y4 & _ & _ & _ & _ & _ & HY).
        rewrite Hr, Hdt in HY. symmetry in HY.
        eapply assign_row_int. exact HY.
    + intros i Hi.
      destruct (rk45_rec f args y0 t Y H i Hi)
        as (yi & ti & ti1 & ks & y4 & H1 & H2 & H3 & H4 & H5 & HY).
      exists yi, ti, ti1, ks, y4. do 5 (split; [assumption|]).
      split; [eapply est4_F; eassumption|]. intros Hl.
      rewrite HY, Hdt, assign_row_eq by (rewrite length_map; done).
      rewrite map_cast_int_of_F; [done|]. eapply est4_F; eassumption.
  - intros A f args y0 t Y Hdt H i Hi.
    destruct (rk45_rec f args y0 t Y H i Hi)
      as (yi & ti & ti1 & ks & y4 & H1 & H2 & H3 & H4 & H5 & HY).
    exists yi, ti, ti1, ks, y4. do 5 (split; [assumption|]). intros Hl.
    rewrite HY, Hdt, assign_row_eq by (rewrite length_map; done).
    rewrite map_cast_float; [done|]. eapply est4_F; eassumption.
Qed.

Lemma rk45_int_state_truncates_witness :
  exists Y, rk45 f_half [I 1; I (-2)] [F 0; F 1] tt = Some Y /\
    Forall (fun r => forallb (fun x => negb (is_F x)) r = true) Y.
Proof.
  exists [[I 1; I (-2)]; [I 1; I (-1)]].
  assert (H : rk45 f_half [I 1; I (-2)] [F 0; F 1] tt
              = Some [[I 1; I (-2)]; [I 1; I (-1)]])
    by (vm_compute; reflexivity).
  split; [exact H|].
  exact (proj1 (proj1 rk45_int_state_truncates unit f_half tt
                  [I 1; I (-2)] [F 0; F 1] _ ltac:(discriminate)
                  ltac:(reflexivity) H)).
Defined.

(** * Further properties of the code *)

(** Row assignment reads the target row only through its length. *)
Lemma assign_row_old_length (dt : dtype) (old old' v : vec) :
  length old = length old' -> assign_row dt old v = assign_row dt old' v.
Proof. intros H. unfold assign_row. rewrite H. reflexivity. Qed.

Lemma cast_idem (dt : dtype) (x : num) : cast dt (cast dt x) = cast dt x.
Proof. destruct dt, x; reflexivity. Qed.

Lemma map_cast_idem (dt : dtype) (v : vec) :
  map (cast dt) (map (cast dt) v) = map (cast dt) v.
Proof.
  induction v as [|x v IH]; simpl; [done|]. rewrite cast_idem, IH. done.
Qed.

Lemma map_cast_replicate (dt : dtype) (k : nat) (x : num) :
  map (cast dt) (replicate k (cast dt x)) = replicate k (cast dt x).
Proof.
  induction k as [|k IH]; simpl; [done|]. rewrite cast_idem, IH. done.
Qed.

Lemma forallb_cast_float (v : vec) : forallb is_F (map (cast Float64) v) = true.
Proof. induction v as [|x v IH]; simpl; [done|]. rewrite IH. destruct x; done. Qed.

Lemma forallb_cast_int (v : vec) :
  forallb (fun x => negb (is_F x)) (map (cast Int64) v) = true.
Proof. induction v as [|x v IH]; simpl; [done|]. rewrite IH. destruct x; done. Qed.

(** A stored row keeps the length of the row it replaces and is a fixed
    point of the cast to the array's dtype. *)
Lemma assign_row_typed (dt : dtype) (n : nat) (old v row : vec) :
  length old = n -> assign_row dt old v = Some row ->
  length row = n /\ map (cast dt) row = row.
Proof.
  intros Hl H. split.
  - rewrite (assign_row_some_len _ _ _ _ H). done.
  - unfold assign_row in H. case_decide.
    + injection H as <-. apply map_cast_idem.
    + destruct v as [|x [|x' v]]; try discriminate. injection H as <-.
      apply map_cast_replicate.
Qed.

Lemma cast_fixed_float (r : vec) :
  map (cast Float64) r = r -> forallb is_F r = true.
Proof. intros <-. apply forallb_cast_float. Qed.

Lemma cast_fixed_int (r : vec) :
  map (cast Int64) r = r -> forallb (fun x => negb (is_F x)) r = true.
Proof. intros <-. apply forallb_cast_int. Qed.

(** A row of the array has the dtype the array was made with. *)
Lemma dtype_of_row (y0 r : vec) :
  length r = length y0 -> map (cast (dtype_of y0)) r = r ->
  dtype_of r = dtype_of y0.
Proof.
  intros Hl Hc. destruct y0 as [|x0 l0].
  - destruct r; [done|discriminate].
  - destruct r as [|x r]; [discriminate|].
    destruct (dtype_of (x0 :: l0)) eqn:Hd.
    + apply cast_fixed_int in Hc. unfold dtype_of.
      rewrite existsb_is_F_false; done.
    + apply cast_fixed_float in Hc. unfold dtype_of.
      rewrite existsb_is_F_true; done.
Qed.

Section LoopMore.
Context {A : Type} (f : vec -> num -> A -> option vec) (args : A).
Context (dt : dtype).

Lemma rk45_body_inv5 (t : list num) i (y y' : list vec) :
  rk45_body f args t dt i y = Some y' ->
  exists yi ti ti1 ks y4 old row y5,
    y !! i = Some yi /\ t !! i = Some ti /\ t !! S i = Some ti1 /\
    rkf45_ks f args (nsub ti1 ti) yi ti = Some ks /\
    est4 ks yi = Some y4 /\ y !! S i = Some old /\
    assign_row dt old y4 = Some row /\ est5 ks yi = Some y5 /\
    y' = <[S i := row]> y.
Proof.
  unfold rk45_body. intros H.
  repeat inv_bind H. injection H as <-.
  do 8 eexists. repeat split; eassumption.
Qed.

Ltac run_body Hyi Hti Hti1 Hks Hy4 Hold Hrow Hy5 :=
  rewrite Hyi, Hti, Hti1; bind_simpl; rewrite Hks; bind_simpl;
  rewrite Hy4; bind_simpl; rewrite Hold; bind_simpl; rewrite Hrow;
  bind_simpl; rewrite Hy5; bind_simpl.

Lemma rk45_loop_split (t : list num) a b i (y : list vec) :
  rk45_loop f args t dt (a + b) i y =
  (y' ← rk45_loop f args t dt a i y; rk45_loop f args t dt b (i + a) y').
Proof.
  revert i y. induction a as [|a IH]; intros i y.
  - simpl. rewrite Nat.add_0_r. reflexivity.
  - cbn [Nat.add rk45_loop].
    destruct (rk45_body f args t dt i y); bind_simpl; [|reflexivity].
    rewrite IH. replace (S i + a) with (i + S a) by lia. reflexivity.
Qed.

Lemma rk45_loop_forall (P : vec -> Prop) (t : list num) k i (y Y : list vec) :
  (forall old v row, P old -> assign_row dt old v = Some row -> P row) ->
  rk45_loop f args t dt k i y = Some Y -> Forall P y -> Forall P Y.
Proof.
  intros HP. revert i y. induction k as [|k IH]; simpl; intros i y H Hy.
  - injection H as <-. done.
  - inv_bind H. eapply IH; [exact H|].
    apply rk45_body_inv in E as (yi & ti & ti1 & ks & y4 & old & row & _ & _
                                  & _ & _ & _ & Hold & Hrow & ->).
    apply Forall_insert; [done|]. eapply HP; [|exact Hrow].
    eapply Forall_lookup_1; eassumption.
Qed.

Lemma rk45_body_shift (t : list num) j i (y y1 : list vec) :
  rk45_body f args t dt (j + i) y = Some y1 ->
  rk45_body f args (drop j t) dt i (drop j y) = Some (drop j y1).
Proof.
  intros H.
  apply rk45_body_inv5 in H as (yi & ti & ti1 & ks & y4 & old & row & y5 & Hyi
    & Hti & Hti1 & Hks & Hy4 & Hold & Hrow & Hy5 & ->).
  unfold rk45_body. rewrite !lookup_drop.
  replace (j + S i) with (S (j + i)) by lia.
  run_body Hyi Hti Hti1 Hks Hy4 Hold Hrow Hy5.
  rewrite drop_insert_ge by lia.
  replace (S (j + i) - j) with (S i) by lia. reflexivity.
Qed.

Lemma rk45_loop_shift (t : list num) j k i (y Y : list vec) :
  rk45_loop f args t dt k (j + i) y = Some Y ->
  rk45_loop f args (drop j t) dt k i (drop j y) = Some (drop j Y).
Proof.
  revert i y. induction k as [|k IH]; simpl; intros i y H.
  - injection H as <-. done.
  - inv_bind H. rename l into y1.
    rewrite (rk45_body_shift t j i y y1 E). bind_simpl.
    apply IH. replace (j + S i) with (S (j + i)) by lia. exact H.
Qed.

Lemma rk45_body_app (t t' : list num) i (y z y1 : list vec) :
  S i < length t -> S i < length y ->
  rk45_body f args (t ++ t') dt i (y ++ z) = Some y1 ->
  exists y2, rk45_body f args t dt i y = Some y2 /\ y1 = y2 ++ z.
Proof.
  intros Ht Hy H.
  apply rk45_body_inv5 in H as (yi & ti & ti1 & ks & y4 & old & row & y5 & Hyi
    & Hti & Hti1 & Hks & Hy4 & Hold & Hrow & Hy5 & ->).
  rewrite lookup_app_l in Hyi, Hold by lia.
  rewrite lookup_app_l in Hti, Hti1 by lia.
  exists (<[S i := row]> y). split.
  - unfold rk45_body. run_body Hyi Hti Hti1 Hks Hy4 Hold Hrow Hy5. done.
  - apply insert_app_l. lia.
Qed.

Lemma rk45_loop_app (t t' : list num) k i (y z Y : list vec) :
  i + k < length t -> length y = length t ->
  rk45_loop f args (t ++ t') dt k i (y ++ z) = Some Y ->
  exists Y1, rk45_loop f args t dt k i y = Some Y1 /\ Y = Y1 ++ z.
Proof.
  revert i y. induction k as [|k IH]; simpl; intros i y Hk Hl H.
  - injection H as <-. eauto.
  - inv_bind H. rename l into y1.
    destruct (rk45_body_app t t' i y z y1 ltac:(lia) ltac:(lia) E)
      as (y2 & E2 & ->).
    rewrite E2. bind_simpl.
    apply (IH (S i) y2); [lia| |exact H].
    apply rk45_body_inv in E2 as (? & ? & ? & ? & ? & ? & ? & ? & ? & ? & ?
                                    & ? & ? & ? & ->).
    rewrite length_insert. done.
Qed.

Lemma rk45_body_congr (t : list num) (L : nat) i (y y' y1 : list vec) :
  y !! i = y' !! i -> length y = length y' ->
  Forall (fun r => length r = L) y -> Forall (fun r => length r = L) y' ->
  rk45_body f args t dt i y = Some y1 ->
  exists row, S i < length y /\ y1 = <[S i := row]> y /\ length row = L /\
    rk45_body f args t dt i y' = Some (<[S i := row]> y').
Proof.
  intros Hi Hl Hy Hy' H.
  apply rk45_body_inv5 in H as (yi & ti & ti1 & ks & y4 & old & row & y5 & Hyi
    & Hti & Hti1 & Hks & Hy4 & Hold & Hrow & Hy5 & ->).
  pose proof (lookup_lt_Some _ _ _ Hold) as Hlt.
  destruct (lookup_lt_is_Some_2 y' (S i) ltac:(lia)) as [old' Hold'].
  pose proof (Forall_lookup_1 _ _ _ _ Hy Hold) as Lold.
  pose proof (Forall_lookup_1 _ _ _ _ Hy' Hold') as Lold'.
  simpl in Lold, Lold'.
  exists row. split; [done|]. split; [done|]. split.
  - rewrite (assign_row_some_len _ _ _ _ Hrow). done.
  - rewrite (assign_row_old_length dt old old' y4) in Hrow by lia.
    unfold rk45_body. rewrite <- Hi.
    run_body Hyi Hti Hti1 Hks Hy4 Hold' Hrow Hy5. done.
Qed.

Lemma rk45_loop_congr (t : list num) (L : nat) k i (y y' Y : list vec) :
  y !! i = y' !! i -> length y = length y' ->
  Forall (fun r => length r = L) y -> Forall (fun r => length r = L) y' ->
  rk45_loop f args t dt k i y = Some Y ->
  exists Y', rk45_loop f args t dt k i y' = Some Y' /\
    forall m, i <= m <= i + k -> Y !! m = Y' !! m.
Proof.
  revert i y y'. induction k as [|k IH]; simpl; intros i y y' Hi Hl Hy Hy' H.
  - injection H as <-. exists y'. split; [done|].
    intros m Hm. replace m with i by lia. done.
  - inv_bind H. rename l into y1.
    destruct (rk45_body_congr t L i y y' y1 Hi Hl Hy Hy' E)
      as (row & Hlt & -> & Lrow & E').
    rewrite E'. bind_simpl.
    destruct (IH (S i) (<[S i := row]> y) (<[S i := row]> y'))
      as (Y' & HY' & Hag).
    + rewrite !list_lookup_insert_eq by lia. done.
    + rewrite !length_insert. done.
    + apply Forall_insert; done.
    + apply Forall_insert; done.
    + exact H.
    + exists Y'. split; [done|]. intros m Hm.
      destruct (decide (m = i)) as [->|Hne]; [|apply Hag; lia].
      rewrite (rk45_loop_prefix f args t dt _ _ _ _ H i) by lia.
      rewrite (rk45_loop_prefix f args t dt _ _ _ _ HY' i) by lia.
      rewrite !list_lookup_insert_ne by lia. done.
Qed.
End LoopMore.

(** Every row of a returned trajectory has the length of [y0] and is
    already of the array's dtype. *)
Lemma rk45_rows_typed {A} (f : vec -> num -> A -> option vec) (args : A)
    (y0 : vec) (t : list num) (Y : list vec) :
  rk45 f y0 t args = Some Y ->
  Forall (fun r => length r = length y0 /\ map (cast (dtype_of y0)) r = r) Y.
Proof.
  unfold rk45. intros H. eapply rk45_loop_forall; [|exact H|].
  - intros old v row [Hl _] Hrow. eapply assign_row_typed; eassumption.
  - apply Forall_replicate. split; [apply length_map|apply map_cast_idem].
Qed.

Lemma rk45_rows_float {A} (f : vec -> num -> A -> option vec) (args : A)
    (y0 : vec) (t : list num) (Y : list vec) :
  dtype_of y0 = Float64 -> rk45 f y0 t args = Some Y ->
  Forall (fun r => forallb is_F r = true) Y.
Proof.
  intros Hd H. apply rk45_rows_typed in H. rewrite Hd in H.
  eapply Forall_impl; [exact H|]. intros r [_ Hr]. apply cast_fixed_float. done.
Qed.

Lemma rk45_entry0_cast {A} (f : vec -> num -> A -> option vec) (args : A)
    (y0 : vec) (t : list num) (Y : list vec) :
  rk45 f y0 t args = Some Y -> 1 <= length t ->
  Y !! 0 = Some (map (cast (dtype_of y0)) y0).
Proof.
  intros H Ht. unfold rk45 in H.
  rewrite (rk45_loop_prefix _ _ _ _ _ _ _ _ H 0) by lia.
  apply lookup_replicate_2. lia.
Qed.



(** X2: when [y0] is empty or has at least one float component, the array
    is float64: every entry of a returned trajectory is a float, the int
    components of [y0] included. *)
Theorem rk45_float_state {A} (f : vec -> num -> A -> option vec)
    (args : A) (y0 : vec) (t : list num) (Y : list vec) :
  y0 = [] \/ existsb is_F y0 = true ->
  rk45 f y0 t args = Some Y -> Forall (fun r => forallb is_F r = true) Y.
Proof.
  intros Hy0 H. apply (rk45_rows_float f args y0 t); [|exact H].
  destruct Hy0 as [->|Hy0]; [done|].
  destruct y0 as [|x l]; [done|]. unfold dtype_of. rewrite Hy0. done.
Qed.

Lemma rk45_float_state_witness :
  rk45 f_zero [I 1; F 2] [F 0; F 1] tt = Some [[F 1; F 2]; [F 1; F 2]] /\
  Forall (fun r => forallb is_F r = true) [[F 1; F 2]; [F 1; F 2]].
Proof.
  assert (H : rk45 f_zero [I 1; F 2] [F 0; F 1] tt
              = Some [[F 1; F 2]; [F 1; F 2]]) by (vm_compute; reflexivity).
  split; [exact H|].
  exact (rk45_float_state f_zero tt [I 1; F 2] [F 0; F 1] _
           (or_intror eq_refl) H).
Defined.

(** X3: on a grid of at least two points, if [f] raises on the initial
    state [np.array(y0)] at [t[0]], [rk45] raises: no partial trajectory
    is returned. *)
Theorem rk45_initial_call_raises {A} (f : vec -> num -> A -> option vec)
    (args : A) (y0 : vec) (t : list num) (t0 : num) :
  2 <= length t -> t !! 0 = Some t0 ->
  f (map (cast (dtype_of y0)) y0) t0 args = None ->
  rk45 f y0 t args = None.
Proof.
  intros Ht Ht0 Hf.
  destruct (lookup_lt_is_Some_2 t 1 ltac:(lia)) as [t1 Ht1].
  unfold rk45. cbv zeta. destruct (length t - 1) as [|k] eqn:Ek; [lia|].
  cbn [rk45_loop]. unfold rk45_body.
  rewrite !lookup_replicate_2 by lia. rewrite Ht0, Ht1. bind_simpl.
  unfold rkf45_ks, stage. rewrite Hf. reflexivity.
Qed.

Lemma rk45_initial_call_raises_witness :
  2 <= length [F 0; F 1] /\
  f_catalysis (map (cast (dtype_of y0_catalysis)) y0_catalysis) (F 0) []
    = None /\
  rk45 f_catalysis y0_catalysis [F 0; F 1] [] = None.
Proof.
  split; [simpl; lia|]. split; [reflexivity|].
  exact (rk45_initial_call_raises f_catalysis [] y0_catalysis [F 0; F 1] (F 0)
           ltac:(simpl; lia) eq_refl eq_refl).
Defined.

(** X4: extending the time grid never changes the earlier entries.  If
    [rk45] returns on the grid [t ++ t'], it also returns on [t], and that
    trajectory is the first [len(t)] entries of the longer one. *)
Theorem rk45_grid_prefix {A} (f : vec -> num -> A -> option vec)
    (args : A) (y0 : vec) (t t' : list num) (Y' : list vec) :
  rk45 f y0 (t ++ t') args = Some Y' ->
  rk45 f y0 t args = Some (take (length t) Y').
Proof.
  intros H. unfold rk45 in *. cbv zeta in *. rewrite length_app in H.
  destruct (length t) as [|n] eqn:Hn; [reflexivity|].
  rewrite replicate_add in H.
  replace (S n + length t' - 1) with (n + length t') in H by lia.
  rewrite rk45_loop_split in H. inv_bind H. rename l into Ymid.
  destruct (rk45_loop_app f args (dtype_of y0) t t' n 0
              (replicate (S n) (map (cast (dtype_of y0)) y0))
              (replicate (length t') (map (cast (dtype_of y0)) y0)) Ymid
              ltac:(lia) ltac:(rewrite length_replicate; lia) E)
    as (Y1 & HY1 & ->).
  replace (S n - 1) with n by lia. rewrite HY1. f_equal.
  pose proof (rk45_loop_length f args t _ _ _ _ _ HY1) as HlY1.
  rewrite length_replicate in HlY1.
  apply list_eq. intros m. rewrite lookup_take. case_decide.
  - rewrite (rk45_loop_prefix _ _ _ _ _ _ _ _ H m) by lia.
    rewrite lookup_app_l by lia. done.
  - apply lookup_ge_None_2. lia.
Qed.

Lemma rk45_grid_prefix_witness :
  rk45 f_half [F 1] ([F 0] ++ [F 1; F 2]) tt
    = Some [[F 1]; [F 1.4999999999999998]; [F 1.9999999999999996]] /\
  rk45 f_half [F 1] [F 0] tt
    = Some (take (length [F 0])
              [[F 1]; [F 1.4999999999999998]; [F 1.9999999999999996]]).
Proof.
  assert (H : rk45 f_half [F 1] ([F 0] ++ [F 1; F 2]) tt
    = Some [[F 1]; [F 1.4999999999999998]; [F 1.9999999999999996]])
    by (vm_compute; reflexivity).
  split; [exact H|].
  exact (rk45_grid_prefix f_half tt [F 1] [F 0] [F 1; F 2] _ H).
Defined.

(** X5: integrating in two legs gives the same trajectory as one call.  If
    [rk45] returns [Y] on the grid [t], then restarting it from entry [j]
    of [Y] on the rest of the grid [t[j:]] returns exactly [Y[j:]]. *)
Theorem rk45_restart {A} (f : vec -> num -> A -> option vec) (args : A)
    (y0 : vec) (t : list num) (Y : list vec) (j : nat) (r : vec) :
  rk45 f y0 t args = Some Y -> Y !! j = Some r ->
  rk45 f r (drop j t) args = Some (drop j Y).
Proof.
  intros H Hj.
  pose proof (rk45_length f args y0 t Y H) as HlY.
  pose proof (lookup_lt_Some _ _ _ Hj) as Hjn.
  pose proof (rk45_rows_typed f args y0 t Y H) as Hrows.
  destruct (Forall_lookup_1 _ _ _ _ Hrows Hj) as [Lr Cr].
  pose proof (dtype_of_row y0 r Lr Cr) as Hdr.
  unfold rk45 in H |- *. cbv zeta in *.
  rewrite Hdr, Cr, length_drop.
  replace (length t - 1) with (j + (length t - 1 - j)) in H by lia.
  rewrite rk45_loop_split in H. inv_bind H. rename l into Ymid.
  assert (HYj : Ymid !! j = Some r).
  { rewrite <- (rk45_loop_prefix _ _ _ _ _ _ _ _ H j) by lia. done. }
  pose proof (rk45_loop_length _ _ _ _ _ _ _ _ E) as HlM.
  rewrite length_replicate in HlM.
  assert (HM : Forall (fun r => length r = length y0) Ymid).
  { eapply rk45_loop_forall; [|exact E|].
    - intros old v row Hold Hrow. rewrite (assign_row_some_len _ _ _ _ Hrow).
      done.
    - apply Forall_replicate. apply length_map. }
  replace (0 + j) with (j + 0) in H by lia.
  apply rk45_loop_shift in H.
  destruct (rk45_loop_congr f args (dtype_of y0) (drop j t) (length y0)
              _ 0 (drop j Ymid) (replicate (length t - j) r) _
              ltac:(rewrite lookup_drop, lookup_replicate_2 by lia;
                    rewrite Nat.add_0_r; exact HYj)
              ltac:(rewrite length_drop, length_replicate; lia)
              (Forall_drop _ _ _ HM)
              (Forall_replicate _ _ _ Lr) H)
    as (Y' & HY' & Hag).
  replace (length t - j - 1) with (length t - 1 - j) by lia.
  rewrite HY'. f_equal.
  pose proof (rk45_loop_length _ _ _ _ _ _ _ _ HY') as HlY'.
  rewrite length_replicate in HlY'.
  apply list_eq. intros m.
  destruct (decide (m <= length t - 1 - j)).
  - symmetry. apply Hag. lia.
  - rewrite !lookup_ge_None_2; [done| |]; rewrite ?length_drop; lia.
Qed.

Lemma rk45_restart_witness :
  rk45 f_half [F 1] [F 0; F 1; F 2] tt
    = Some [[F 1]; [F 1.4999999999999998]; [F 1.9999999999999996]] /\
  [[F 1]; [F 1.4999999999999998]; [F 1.9999999999999996]] !! 1
    = Some [F 1.4999999999999998] /\
  rk45 f_half [F 1.4999999999999998] (drop 1 [F 0; F 1; F 2]) tt
    = Some (drop 1
        [[F 1]; [F 1.4999999999999998]; [F 1.9999999999999996]]).
Proof.
  assert (H : rk45 f_half [F 1] [F 0; F 1; F 2] tt
    = Some [[F 1]; [F 1.4999999999999998]; [F 1.9999999999999996]])
    by (vm_compute; reflexivity).
  split; [exact H|]. split; [reflexivity|].
  exact (rk45_restart f_half tt [F 1] [F 0; F 1; F 2] _ 1 _ H eq_refl).
Defined.

Lemma forallb_insert_F (v : vec) (i : nat) (x : num) :
  is_F x = true -> forallb is_F v = true -> forallb is_F (<[i := x]> v) = true.
Proof.
  revert i. induction v as [|a v IH]; intros [|i] Hx Hv; simpl in *; auto.
  - apply andb_true_iff in Hv as [_ Hv]. rewrite Hx, Hv. done.
  - apply andb_true_iff in Hv as [Ha Hv]. rewrite Ha. simpl. auto.
Qed.

Lemma is_F_cast_float (x : num) : is_F (cast Float64 x) = true.
Proof. destruct x; reflexivity. Qed.

Lemma setitem_some (v v' : vec) (i : nat) (x : num) :
  setitem v i x = Some v' ->
  length v' = length v /\ (forallb is_F v = true -> forallb is_F v' = true).
Proof.
  unfold setitem. case_decide; [|discriminate]. intros [= <-]. split.
  - apply length_insert.
  - apply forallb_insert_F, is_F_cast_float.
Qed.

(** X6: [f_catalysis] raises (IndexError) exactly when [kappa] has fewer
    than 5 entries or [y] fewer than 3; when it returns, the result is a
    float64 vector of 6 components, whatever the types of [y] and
    [kappa]. *)
Theorem f_catalysis_domain (y : vec) (t : num) (kappa : vec) :
  (is_Some (f_catalysis y t kappa) <-> 5 <= length kappa /\ 3 <= length y) /\
  (forall out, f_catalysis y t kappa = Some out ->
     length out = 6 /\ forallb is_F out = true).
Proof.
  split.
  - destruct kappa as [|k0 [|k1 [|k2 [|k3 [|k4 kappa]]]]],
      y as [|y0 [|y1 [|y2 y]]]; simpl; split;
      try (intros [? Hs]; discriminate Hs); try (intros; lia);
      intros _; eexists; reflexivity.
  - intros out H. unfold f_catalysis in H.
    repeat inv_bind H. injection H as <-.
    repeat match goal with
    | H : setitem _ _ _ = Some _ |- _ => apply setitem_some in H as [? ?]
    end.
    rewrite length_replicate in *. split; [lia|]. eauto 10.
Qed.

(** X7: [f_catalysis] reads nothing but [y[0..2]] and [kappa[0..4]]: the
    time [t] and any further components of [y] or [kappa] never change its
    result. *)
Theorem f_catalysis_reads_prefix (y : vec) (t t' : num) (kappa : vec) :
  f_catalysis y t kappa = f_catalysis (take 3 y) t' (take 5 kappa).
Proof. unfold f_catalysis. rewrite !lookup_take. reflexivity. Qed.

(** X8: the model run of [compare_model_to_data] never raises, whatever
    [xi1 .. xi5] and whatever values the exponential takes: its [rk45]
    call returns a trajectory of 100 rows, one per point of
    [np.linspace(0, 180, 100)], starting from [(500., 0., 0., 0., 0., 0.)],
    each row made of 6 floats. *)
Theorem compare_model_to_data_run (np_exp : float -> float)
    (xi1 xi2 xi3 xi4 xi5 : float) :
  exists Y, compare_model_to_data np_exp xi1 xi2 xi3 xi4 xi5 = Some Y /\
    length Y = 100 /\ Y !! 0 = Some y0_catalysis /\
    Forall (fun r => length r = 6 /\ forallb is_F r = true) Y.
Proof.
  unfold compare_model_to_data. cbv zeta.
  match goal with
  | |- context [rk45 f_catalysis y0_catalysis ?t ?kap] =>
      destruct (rk45_some f_catalysis kap y0_catalysis t
                  (f_catalysis_ok kap eq_refl)) as (Y & HY & _ & HlY & Hrows)
  end.
  assert (Hlt : length (linspace 0 180 100) = 100) by reflexivity.
  exists Y. split; [exact HY|]. split; [rewrite HlY; exact Hlt|]. split.
  - rewrite (rk45_entry0_cast _ _ _ _ _ HY) by (rewrite Hlt; lia).
    rewrite cast_homogeneous; reflexivity.
  - apply Forall_and. split; [exact Hrows|].
    exact (rk45_rows_float f_catalysis _ y0_catalysis _ Y eq_refl HY).
Qed.

Section PropagateMore.
Context {G : Type} (std_normal : G -> float * G) (np_exp : float -> float).
Context (mu1 sig1 mu2 sig2 mu3 sig3 mu4 sig4 mu5 sig5 : float).

(** One iteration draws five normals, in order, and integrates the model
    with the rates they give. *)
Lemma sample_once_inv (t : list num) (g g' : G) (Y : list vec) :
  sample_once std_normal np_exp mu1 sig1 mu2 sig2 mu3 sig3 mu4 sig4 mu5 sig5
    t g = Some (Y, g') ->
  g' = Nat.iter 5 (fun h => snd (std_normal h)) g /\
  Some Y =
    (let '(z1, g1) := std_normal g in let '(z2, g2) := std_normal g1 in
     let '(z3, g3) := std_normal g2 in let '(z4, g4) := std_normal g3 in
     let '(z5, _) := std_normal g4 in
     rk45 f_catalysis y0_catalysis t
       (map (fun xi => F (np_exp xi / 180)%float)
          [z1 * sig1 + mu1; z2 * sig2 + mu2; z3 * sig3 + mu3;
           z4 * sig4 + mu4; z5 * sig5 + mu5]%float)).
Proof.
  intros H. cbn [Nat.iter nat_rect]. unfold sample_once, norm_rvs in H.
  destruct (0 <=? sig1)%float; [|discriminate].
  destruct (std_normal g) as [z1 g1]. cbn [fst snd mbind option_bind] in H |- *.
  destruct (0 <=? sig2)%float; [|discriminate].
  destruct (std_normal g1) as [z2 g2]. cbn [fst snd mbind option_bind] in H |- *.
  destruct (0 <=? sig3)%float; [|discriminate].
  destruct (std_normal g2) as [z3 g3]. cbn [fst snd mbind option_bind] in H |- *.
  destruct (0 <=? sig4)%float; [|discriminate].
  destruct (std_normal g3) as [z4 g4]. cbn [fst snd mbind option_bind] in H |- *.
  destruct (0 <=? sig5)%float; [|discriminate].
  destruct (std_normal g4) as [z5 g5]. cbn [fst snd mbind option_bind] in H |- *.
  match type of H with
  | ?x ≫= _ = _ => destruct x eqn:E; cbn [mbind option_bind] in H
  end; [|discriminate].
  injection H as <- <-. split; [done|]. exact (eq_sym E).
Qed.

Lemma sample_loop_inv (t : list num) (k : nat) (g g' : G)
    (E : list (list vec)) :
  sample_loop std_normal np_exp mu1 sig1 mu2 sig2 mu3 sig3 mu4 sig4 mu5 sig5
    t k g = Some (E, g') ->
  g' = Nat.iter (5 * k) (fun h => snd (std_normal h)) g /\ length E = k /\
  forall j, j < k ->
  E !! j =
    (let g0 := Nat.iter (5 * j) (fun h => snd (std_normal h)) g in
     let '(z1, g1) := std_normal g0 in let '(z2, g2) := std_normal g1 in
     let '(z3, g3) := std_normal g2 in let '(z4, g4) := std_normal g3 in
     let '(z5, _) := std_normal g4 in
     rk45 f_catalysis y0_catalysis t
       (map (fun xi => F (np_exp xi / 180)%float)
          [z1 * sig1 + mu1; z2 * sig2 + mu2; z3 * sig3 + mu3;
           z4 * sig4 + mu4; z5 * sig5 + mu5]%float)).
Proof.
  revert g g' E. induction k as [|k IH]; intros g g' E H; cbn [sample_loop] in H.
  - injection H as <- <-. split; [done|]. split; [done|]. intros; lia.
  - destruct (sample_once std_normal np_exp mu1 sig1 mu2 sig2 mu3 sig3 mu4
                sig4 mu5 sig5 t g) as [[Y g1]|] eqn:E1;
      cbn [mbind option_bind] in H; [|discriminate].
    destruct (sample_loop std_normal np_exp mu1 sig1 mu2 sig2 mu3 sig3 mu4
                sig4 mu5 sig5 t k g1) as [[Ys g2]|] eqn:E2;
      cbn [mbind option_bind] in H; [|discriminate].
    injection H as <- <-.
    destruct (sample_once_inv t g g1 Y E1) as [Hg1 HY].
    destruct (IH g1 g2 Ys E2) as (Hg2 & HlYs & HYs).
    assert (Hit : forall j, Nat.iter (5 * j) (fun h => snd (std_normal h)) g1
                  = Nat.iter (5 * S j) (fun h => snd (std_normal h)) g).
    { intros j. rewrite Hg1, <- Nat.iter_add. f_equal. lia. }
    split; [|split].
    + rewrite Hg2, Hit. done.
    + cbn [length]. rewrite HlYs. done.
    + intros [|j] Hj.
      * exact HY.
      * change ((Y :: Ys) !! S j) with (Ys !! j).
        rewrite HYs by lia. rewrite Hit. reflexivity.
Qed.
End PropagateMore.

(** X9: a scale that is negative (or NaN) makes [plot_samples] raise as
    soon as one sample is taken: with [num_samples >= 1], [norm.rvs]
    signals a ValueError and no ensemble is returned. *)
Theorem plot_samples_bad_scale_raises {G} (std_normal : G -> float * G)
    (np_exp : float -> float)
    (mu1 sig1 mu2 sig2 mu3 sig3 mu4 sig4 mu5 sig5 : float)
    (num_samples : Z) (g : G) :
  ((0 <=? sig1) && (0 <=? sig2) && (0 <=? sig3) && (0 <=? sig4)
   && (0 <=? sig5))%float = false ->
  (1 <= num_samples)%Z ->
  plot_samples std_normal np_exp mu1 sig1 mu2 sig2 mu3 sig3 mu4 sig4 mu5 sig5
    num_samples g = None.
Proof.
  intros Hs Hn. revert Hs. unfold plot_samples.
  destruct (Z.to_nat num_samples) as [|k] eqn:Ek; [lia|].
  cbn [sample_loop]. unfold sample_once, norm_rvs.
  destruct (0 <=? sig1)%float; [|intros; reflexivity].
  destruct (std_normal g) as [z1 g1]. bind_simpl.
  destruct (0 <=? sig2)%float; [|intros; reflexivity].
  destruct (std_normal g1) as [z2 g2]. bind_simpl.
  destruct (0 <=? sig3)%float; [|intros; reflexivity].
  destruct (std_normal g2) as [z3 g3]. bind_simpl.
  destruct (0 <=? sig4)%float; [|intros; reflexivity].
  destruct (std_normal g3) as [z4 g4]. bind_simpl.
  destruct (0 <=? sig5)%float; [|intros; reflexivity].
  intros Hs. discriminate Hs.
Qed.

Lemma plot_samples_bad_scale_raises_witness :
  ((0 <=? 0.055) && (0 <=? 0.086) && (0 <=? 0.118) && (0 <=? -0.167)
   && (0 <=? 0.368))%float = false /\ (1 <= 3)%Z /\
  plot_samples zero_normal (fun x => x)
    1.359 0.055 1.657 0.086 1.347 0.118 (-0.162) (-0.167) (-1.009) 0.368
    3 0%nat = None.
Proof.
  split; [reflexivity|]. split; [lia|].
  exact (plot_samples_bad_scale_raises zero_normal (fun x => x)
    1.359 0.055 1.657 0.086 1.347 0.118 (-0.162) (-0.167) (-1.009) 0.368
    3 0%nat eq_refl ltac:(lia)).
Defined.

(** X10: each sample takes exactly five draws from the random source: when
    [plot_samples] returns, the source has advanced by [5 * num_samples]
    draws (none when [num_samples < 1]), and one trajectory was produced
    per sample. *)
Theorem plot_samples_draw_count {G} (std_normal : G -> float * G)
    (np_exp : float -> float)
    (mu1 sig1 mu2 sig2 mu3 sig3 mu4 sig4 mu5 sig5 : float)
    (num_samples : Z) (g g' : G) (E : list (list vec)) :
  plot_samples std_normal np_exp mu1 sig1 mu2 sig2 mu3 sig3 mu4 sig4 mu5 sig5
    num_samples g = Some (E, g') ->
  g' = Nat.iter (5 * Z.to_nat num_samples) (fun h => snd (std_normal h)) g /\
  length E = Z.to_nat num_samples.
Proof.
  unfold plot_samples. intros H.
  destruct (sample_loop_inv std_normal np_exp mu1 sig1 mu2 sig2 mu3 sig3 mu4
              sig4 mu5 sig5 _ _ g g' E H) as (Hg & HE & _).
  auto.
Qed.

Lemma plot_samples_draw_count_witness :
  exists E, plot_samples zero_normal (fun x => x)
    1.359 0.055 1.657 0.086 1.347 0.118 (-0.162) 0.167 (-1.009) 0.368
    2 0%nat = Some (E, 10%nat) /\
  10%nat = Nat.iter (5 * Z.to_nat 2) (fun h => snd (zero_normal h)) 0%nat /\
  length E = Z.to_nat 2.
Proof.
  destruct (plot_samples zero_normal (fun x => x)
    1.359 0.055 1.657 0.086 1.347 0.118 (-0.162) 0.167 (-1.009) 0.368
    2 0%nat) as [[E g']|] eqn:H; [|vm_compute in H; discriminate H].
  assert (Hg : g' = 10%nat) by (vm_compute in H; injection H as _ <-; done).
  subst g'. exists E. split; [reflexivity|].
  exact (plot_samples_draw_count zero_normal (fun x => x)
    1.359 0.055 1.657 0.086 1.347 0.118 (-0.162) 0.167 (-1.009) 0.368
    2 0%nat 10%nat E H).
Defined.

(** X11: sample [j] of [plot_samples] is the curve [compare_model_to_data]
    draws for the parameters sampled at that iteration: with [z1 .. z5] the
    draws number [5j+1 .. 5j+5] of the random source, trajectory [j] is
    [compare_model_to_data(z1 * sig1 + mu1, ..., z5 * sig5 + mu5)]. *)
Theorem plot_samples_sample_is_model_run {G} (std_normal : G -> float * G)
    (np_exp : float -> float)
    (mu1 sig1 mu2 sig2 mu3 sig3 mu4 sig4 mu5 sig5 : float)
    (num_samples : Z) (g g' : G) (E : list (list vec)) :
  plot_samples std_normal np_exp mu1 sig1 mu2 sig2 mu3 sig3 mu4 sig4 mu5 sig5
    num_samples g = Some (E, g') ->
  forall j, j < Z.to_nat num_samples ->
  E !! j =
    (let g0 := Nat.iter (5 * j) (fun h => snd (std_normal h)) g in
     let '(z1, g1) := std_normal g0 in let '(z2, g2) := std_normal g1 in
     let '(z3, g3) := std_normal g2 in let '(z4, g4) := std_normal g3 in
     let '(z5, _) := std_normal g4 in
     compare_model_to_data np_exp (z1 * sig1 + mu1) (z2 * sig2 + mu2)
       (z3 * sig3 + mu3) (z4 * sig4 + mu4) (z5 * sig5 + mu5))%float.
Proof.
  unfold plot_samples. intros H j Hj.
  destruct (sample_loop_inv std_normal np_exp mu1 sig1 mu2 sig2 mu3 sig3 mu4
              sig4 mu5 sig5 _ _ g g' E H) as (_ & _ & HE).
  rewrite (HE j Hj). unfold compare_model_to_data. reflexivity.
Qed.

Lemma plot_samples_sample_is_model_run_witness :
  exists E g', plot_samples zero_normal (fun x => x)
    1.359 0.055 1.657 0.086 1.347 0.118 (-0.162) 0.167 (-1.009) 0.368
    1 0%nat = Some (E, g') /\ 0 < Z.to_nat 1 /\
  E !! 0 =
    (let g0 := Nat.iter (5 * 0) (fun h => snd (zero_normal h)) 0%nat in
     let '(z1, g1) := zero_normal g0 in let '(z2, g2) := zero_normal g1 in
     let '(z3, g3) := zero_normal g2 in let '(z4, g4) := zero_normal g3 in
     let '(z5, _) := zero_normal g4 in
     compare_model_to_data (fun x => x) (z1 * 0.055 + 1.359)
       (z2 * 0.086 + 1.657) (z3 * 0.118 + 1.347) (z4 * 0.167 + -0.162)
       (z5 * 0.368 + -1.009))%float.
Proof.
  destruct (plot_samples zero_normal (fun x => x)
    1.359 0.055 1.657 0.086 1.347 0.118 (-0.162) 0.167 (-1.009) 0.368
    1 0%nat) as [[E g']|] eqn:H; [|vm_compute in H; discriminate H].
  exists E, g'. split; [reflexivity|]. split; [lia|].
  exact (plot_samples_sample_is_model_run zero_normal (fun x => x)
    1.359 0.055 1.657 0.086 1.347 0.118 (-0.162) 0.167 (-1.009) 0.368
    1 0%nat g' E H 0 ltac:(lia)).
Defined.
